(** * Mindful-Moments: the live voice session and the diary analysis call

    A shallow embedding of [src/components/LiveSession.tsx] (the playback
    scheduler in [onmessage], the capture callback [onaudioprocess],
    [toggleMute] and the teardown [cleanupAudio]) and of the two versions of
    [analyzeDiaryEntry] in the Gemini service files, with the properties the
    specification states about them.  Around these: the setup of the
    session ([connectToLive], [onopen]), the rest of the service
    ([transcribeAudio], [fetchDailyJoke], the class [MultiProviderChat]) and
    the handlers that call the service ([handleSend] of
    [src/components/ChatAssistant.tsx]; [handleSaveEntry], the dictation
    handler and [checkAndFetchJoke] of [src/App.tsx]).

    Conventions.
    - Time is counted in sample frames of the 24 kHz output [AudioContext]
      ([new OutputContext({ sampleRate: 24000 })]); the context clock
      [currentTime] advances by whole frames, and the duration of a decoded
      buffer is its length in frames.  20 ms are 480 frames.
    - JavaScript objects (nodes, contexts, tracks, promises) are handles,
      natural numbers standing for object identity.
    - Callbacks run in a monad with the component's refs as state, thrown
      exceptions as an outcome and the calls made on browser objects as an
      emitted list of effects, in program order. *)

From Stdlib Require Import ZArith List String Bool Arith Lia.
From Stdlib Require DecimalString.
Import ListNotations.
Local Open Scope string_scope.
Local Open Scope list_scope.
Local Open Scope Z_scope.

(** ** A small monad for JavaScript callbacks *)

Module Js.

Inductive outcome (A : Type) : Type :=
| Normal (a : A)
| Throw (e : string).
Arguments Normal {A} a.
Arguments Throw {A} e.

(** State [S], emitted effects [E], result [A].  A throw keeps the state
    changes and the effects made before it. *)
Definition M (S E A : Type) : Type := S -> outcome A * S * list E.

Definition outcome_of {S E A} (x : outcome A * S * list E) : outcome A := fst (fst x).
Definition state_of {S E A} (x : outcome A * S * list E) : S := snd (fst x).
Definition effects_of {S E A} (x : outcome A * S * list E) : list E := snd x.

Section Ops.
Context {S E : Type}.

Definition ret {A} (a : A) : M S E A := fun s => (Normal a, s, []).

Definition bind {A B} (m : M S E A) (k : A -> M S E B) : M S E B :=
  fun s =>
    match m s with
    | (Normal a, s1, out1) =>
        let '(r, s2, out2) := k a s1 in (r, s2, out1 ++ out2)
    | (Throw e, s1, out1) => (Throw e, s1, out1)
    end.

Definition throw {A} (e : string) : M S E A := fun s => (Throw e, s, []).

Definition get : M S E S := fun s => (Normal s, s, []).

Definition modify (f : S -> S) : M S E unit := fun s => (Normal tt, f s, []).

Definition emit (e : E) : M S E unit := fun s => (Normal tt, s, [e]).

(** [try { body } catch (e) { handler e }] *)
Definition try_catch {A} (body : M S E A) (handler : string -> M S E A)
  : M S E A :=
  fun s =>
    match body s with
    | (Normal a, s1, out1) => (Normal a, s1, out1)
    | (Throw e, s1, out1) =>
        let '(r, s2, out2) := handler e s1 in (r, s2, out1 ++ out2)
    end.

(** [xs.forEach(f)]: a throw in [f] leaves the loop. *)
Fixpoint forEach {A} (xs : list A) (f : A -> M S E unit) : M S E unit :=
  match xs with
  | [] => ret tt
  | x :: rest => bind (f x) (fun _ => forEach rest f)
  end.

(** [if (ref) { ... }] on a nullable reference. *)
Definition when_some {A} (o : option A) (f : A -> M S E unit) : M S E unit :=
  match o with
  | Some a => f a
  | None => ret tt
  end.
End Ops.

Declare Scope js_scope.
Delimit Scope js_scope with js.
Notation "x <- m ;; k" := (bind m (fun x => k))
  (at level 61, m at next level, right associativity) : js_scope.
Notation "m ;; k" := (bind m (fun _ => k))
  (at level 61, right associativity) : js_scope.

End Js.

Import Js.
Local Open Scope js_scope.

(** ** [src/components/LiveSession.tsx] *)

Module LiveSession.

Definition handle := nat.

(** A decoded [AudioBuffer]: its length in frames at 24 kHz. *)
Record AudioBuffer := { frames : N }.

(** [audioBuffer.duration], in frames of the output clock. *)
Definition duration (b : AudioBuffer) : Z := Z.of_N (frames b).

Definition MediaStream := list handle.   (* its tracks, [getTracks()] *)

(** The refs of the component, lines 19-29. *)
Record refs := {
  inputAudioContextRef : option handle;
  outputAudioContextRef : option handle;
  nextStartTimeRef : Z;
  sourcesRef : list handle;      (* Set<AudioBufferSourceNode>, in insertion order *)
  streamRef : option MediaStream;
  sessionRef : option handle;    (* the session promise *)
  processorRef : option handle;
  sourceNodeRef : option handle;
  requestRef : option nat
}.

Definition set_inputAudioContextRef v r :=
  {| inputAudioContextRef := v; outputAudioContextRef := outputAudioContextRef r;
     nextStartTimeRef := nextStartTimeRef r; sourcesRef := sourcesRef r;
     streamRef := streamRef r; sessionRef := sessionRef r;
     processorRef := processorRef r; sourceNodeRef := sourceNodeRef r;
     requestRef := requestRef r |}.
Definition set_outputAudioContextRef v r :=
  {| inputAudioContextRef := inputAudioContextRef r; outputAudioContextRef := v;
     nextStartTimeRef := nextStartTimeRef r; sourcesRef := sourcesRef r;
     streamRef := streamRef r; sessionRef := sessionRef r;
     processorRef := processorRef r; sourceNodeRef := sourceNodeRef r;
     requestRef := requestRef r |}.
Definition set_nextStartTimeRef v r :=
  {| inputAudioContextRef := inputAudioContextRef r;
     outputAudioContextRef := outputAudioContextRef r;
     nextStartTimeRef := v; sourcesRef := sourcesRef r;
     streamRef := streamRef r; sessionRef := sessionRef r;
     processorRef := processorRef r; sourceNodeRef := sourceNodeRef r;
     requestRef := requestRef r |}.
Definition set_sourcesRef v r :=
  {| inputAudioContextRef := inputAudioContextRef r;
     outputAudioContextRef := outputAudioContextRef r;
     nextStartTimeRef := nextStartTimeRef r; sourcesRef := v;
     streamRef := streamRef r; sessionRef := sessionRef r;
     processorRef := processorRef r; sourceNodeRef := sourceNodeRef r;
     requestRef := requestRef r |}.
Definition set_streamRef v r :=
  {| inputAudioContextRef := inputAudioContextRef r;
     outputAudioContextRef := outputAudioContextRef r;
     nextStartTimeRef := nextStartTimeRef r; sourcesRef := sourcesRef r;
     streamRef := v; sessionRef := sessionRef r;
     processorRef := processorRef r; sourceNodeRef := sourceNodeRef r;
     requestRef := requestRef r |}.
Definition set_sessionRef v r :=
  {| inputAudioContextRef := inputAudioContextRef r;
     outputAudioContextRef := outputAudioContextRef r;
     nextStartTimeRef := nextStartTimeRef r; sourcesRef := sourcesRef r;
     streamRef := streamRef r; sessionRef := v;
     processorRef := processorRef r; sourceNodeRef := sourceNodeRef r;
     requestRef := requestRef r |}.
Definition set_processorRef v r :=
  {| inputAudioContextRef := inputAudioContextRef r;
     outputAudioContextRef := outputAudioContextRef r;
     nextStartTimeRef := nextStartTimeRef r; sourcesRef := sourcesRef r;
     streamRef := streamRef r; sessionRef := sessionRef r;
     processorRef := v; sourceNodeRef := sourceNodeRef r;
     requestRef := requestRef r |}.
Definition set_sourceNodeRef v r :=
  {| inputAudioContextRef := inputAudioContextRef r;
     outputAudioContextRef := outputAudioContextRef r;
     nextStartTimeRef := nextStartTimeRef r; sourcesRef := sourcesRef r;
     streamRef := streamRef r; sessionRef := sessionRef r;
     processorRef := processorRef r; sourceNodeRef := v;
     requestRef := requestRef r |}.

(** The refs once [connectToLive] has run to its end (lines 71-75 and
    175): both contexts, the microphone stream and the session promise. *)
Definition connected_refs (input output : handle) (stream : MediaStream)
                          (session : handle) : refs :=
  {| inputAudioContextRef := Some input; outputAudioContextRef := Some output;
     nextStartTimeRef := 0; sourcesRef := [];
     streamRef := Some stream; sessionRef := Some session;
     processorRef := None; sourceNodeRef := None; requestRef := None |}.

(** The state of a freshly mounted component: every ref at its
    [useRef] initial value. *)
Definition initial_refs : refs :=
  {| inputAudioContextRef := None; outputAudioContextRef := None;
     nextStartTimeRef := 0; sourcesRef := [];
     streamRef := None; sessionRef := None;
     processorRef := None; sourceNodeRef := None; requestRef := None |}.

(** Calls on browser objects and on the console, in program order. *)
Inductive effect :=
| ConsoleLog (msg : string)
| ConsoleError (msg : string)
| ProcessorDisconnect (node : handle)     (* [processorRef.current.disconnect()] *)
| SourceNodeDisconnect (node : handle)    (* [sourceNodeRef.current.disconnect()] *)
| TrackStop (track : handle)              (* [track.stop()] *)
| ContextClose (ctx : handle)             (* [AudioContext.close()] *)
| SourceStart (source : handle) (buffer : AudioBuffer) (when : Z)
| SourceStop (source : handle)            (* the call [source.stop()], whether or not it throws *)
| SessionClose (promise : handle)         (* [promise.then(s => s.close()).catch(...)] *)
| CancelAnimationFrame (id : nat).

Definition Cb := M refs effect.

(** [Set.prototype.add]: no effect on a member, else appended. *)
Definition set_add (x : handle) (s : list handle) : list handle :=
  if existsb (Nat.eqb x) s then s else s ++ [x].

(** [Set.prototype.delete]. *)
Definition set_delete (x : handle) (s : list handle) : list handle :=
  filter (fun y => negb (Nat.eqb x y)) s.

(** A server message, reduced to the two fields [onmessage] reads:
    [serverContent?.interrupted] and
    [serverContent?.modelTurn?.parts?.[0]?.inlineData?.data]. *)
Record LiveServerMessage := {
  interrupted : bool;
  inlineData : option string
}.

(** Truthiness of an optional string: [undefined] and [""] are falsy. *)
Definition truthy_string (o : option string) : option string :=
  match o with
  | Some s => if String.eqb s "" then None else Some s
  | None => None
  end.

Section WithAudioUtils.

(** [services/audioUtils] is not among the sources; its functions are
    parameters.  [None] stands for a thrown exception or a rejected
    promise.  [stop_throws] says for which source nodes [stop()] throws. *)
Context {bytes : Type}.
Variable base64ToUint8Array : string -> option bytes.
Variable decodeAudioData : bytes -> option AudioBuffer.
Variable stop_throws : handle -> bool.

(** [source.stop()] *)
Definition source_stop (source : handle) : Cb unit :=
  emit (SourceStop source) ;;
  if stop_throws source then throw "InvalidStateError" else ret tt.

(** Lines 127-129 and 49-51:
    [sourcesRef.current.forEach(source => { try { source.stop(); } catch(e) {} })] *)
Definition stop_all_sources : Cb unit :=
  r <- get ;;
  forEach (sourcesRef r)
    (fun source => try_catch (source_stop source) (fun _ => ret tt)).

(** [cleanupAudio], lines 31-63. *)
Definition cleanupAudio : Cb unit :=
  r <- get ;;
  when_some (processorRef r) (fun p =>
    emit (ProcessorDisconnect p) ;;
    modify (set_processorRef None)) ;;
  r <- get ;;
  when_some (sourceNodeRef r) (fun n =>
    emit (SourceNodeDisconnect n) ;;
    modify (set_sourceNodeRef None)) ;;
  r <- get ;;
  when_some (streamRef r) (fun stream =>
    forEach stream (fun track => emit (TrackStop track)) ;;
    modify (set_streamRef None)) ;;
  r <- get ;;
  when_some (inputAudioContextRef r) (fun ctx =>
    emit (ContextClose ctx) ;;
    modify (set_inputAudioContextRef None)) ;;
  r <- get ;;
  when_some (outputAudioContextRef r) (fun ctx =>
    stop_all_sources ;;
    modify (set_sourcesRef []) ;;
    emit (ContextClose ctx) ;;
    modify (set_outputAudioContextRef None)) ;;
  r <- get ;;
  when_some (sessionRef r) (fun p =>
    emit (SessionClose p) ;;
    modify (set_sessionRef None)) ;;
  r <- get ;;
  match requestRef r with
  | Some (S id) => emit (CancelAnimationFrame (S id))
  | _ => ret tt
  end.

(** What a teardown owes: one release call for every resource held, in
    the order of [cleanupAudio]. *)
Definition option_list {A} (o : option A) : list A :=
  match o with Some a => [a] | None => [] end.

Definition release_calls (r : refs) : list effect :=
  map ProcessorDisconnect (option_list (processorRef r))
  ++ map SourceNodeDisconnect (option_list (sourceNodeRef r))
  ++ flat_map (map TrackStop) (option_list (streamRef r))
  ++ map ContextClose (option_list (inputAudioContextRef r))
  ++ flat_map (fun ctx => map SourceStop (sourcesRef r) ++ [ContextClose ctx])
              (option_list (outputAudioContextRef r))
  ++ map SessionClose (option_list (sessionRef r)).

(** [cancelAnimationFrame] is called whenever [requestRef] holds an id. *)
Definition cancel_calls (r : refs) : list effect :=
  match requestRef r with
  | Some (S id) => [CancelAnimationFrame (S id)]
  | _ => []
  end.

(** The refs with every resource let go. *)
Definition released (r : refs) : refs :=
  {| inputAudioContextRef := None; outputAudioContextRef := None;
     nextStartTimeRef := nextStartTimeRef r;
     sourcesRef := match outputAudioContextRef r with
                   | Some _ => []
                   | None => sourcesRef r
                   end;
     streamRef := None; sessionRef := None;
     processorRef := None; sourceNodeRef := None;
     requestRef := requestRef r |}.

(** A call that releases a resource of the session. *)
Definition is_release (e : effect) : bool :=
  match e with
  | ProcessorDisconnect _ | SourceNodeDisconnect _ | TrackStop _
  | ContextClose _ | SourceStop _ | SessionClose _ => true
  | _ => false
  end.

(** [cleanupAudio] called [n] times in a row. *)
Fixpoint cleanup_times (n : nat) : Cb unit :=
  match n with
  | O => ret tt
  | S n' => cleanupAudio ;; cleanup_times n'
  end.

(** What [onmessage] still has to do once [decodeAudioData] settles:
    the local [ctx] and the bytes under decoding. *)
Record continuation := { k_ctx : handle; k_data : bytes }.

(** [onmessage] from its entry to the [await] of line 141. *)
Definition onmessage_begin (message : LiveServerMessage) (currentTime : Z)
  : Cb (option continuation) :=
  if interrupted message then
    emit (ConsoleLog "Interrupted") ;;
    stop_all_sources ;;
    modify (set_sourcesRef []) ;;
    modify (set_nextStartTimeRef 0) ;;
    ret None
  else
    r <- get ;;
    match truthy_string (inlineData message), outputAudioContextRef r with
    | Some base64Audio, Some ctx =>
        modify (fun r => set_nextStartTimeRef
                           (Z.max (nextStartTimeRef r) currentTime) r) ;;
        try_catch
          (match base64ToUint8Array base64Audio with
           | Some data => ret (Some {| k_ctx := ctx; k_data := data |})
           | None => throw "InvalidCharacterError"
           end)
          (fun _ => emit (ConsoleError "Audio decode error") ;; ret None)
    | _, _ => ret None
    end.

(** [onmessage] after the [await]: lines 141-160.  [source] is the node
    [ctx.createBufferSource()] returns.  The visualizer update touches
    display state only and is left out. *)
Definition onmessage_resume (k : continuation) (source : handle) : Cb unit :=
  try_catch
    (match decodeAudioData (k_data k) with
     | None => throw "decodeAudioData"
     | Some audioBuffer =>
         r <- get ;;
         emit (SourceStart source audioBuffer (nextStartTimeRef r)) ;;
         modify (fun r => set_nextStartTimeRef
                            (nextStartTimeRef r + duration audioBuffer) r) ;;
         modify (fun r => set_sourcesRef (set_add source (sourcesRef r)) r)
     end)
    (fun _ => emit (ConsoleError "Audio decode error")).

(** One message handled with no other callback between its two halves. *)
Definition onmessage (message : LiveServerMessage) (currentTime : Z)
                     (source : handle) : Cb unit :=
  k <- onmessage_begin message currentTime ;;
  when_some k (fun k => onmessage_resume k source).

(** [source.onended = () => sourcesRef.current.delete(source)] *)
Definition onended (source : handle) : Cb unit :=
  modify (fun r => set_sourcesRef (set_delete source (sourcesRef r)) r).

(** *** The message pump

    The SDK calls [onmessage] once per server message and does not wait
    for the promise it returns, so a second message can be handled
    while the decode of a first one is pending.  [arrivals] numbers the
    invocations; a pending invocation is resumed when its decode
    settles. *)
Record pump := {
  pump_refs : refs;
  pending : list (nat * continuation);
  arrivals : nat
}.

Inductive event :=
| Message (message : LiveServerMessage) (currentTime : Z)
| DecodeSettled (ticket : nat) (source : handle)
| Ended (source : handle).

Fixpoint take_ticket (t : nat) (ps : list (nat * continuation))
  : option continuation * list (nat * continuation) :=
  match ps with
  | [] => (None, [])
  | (t', k) :: rest =>
      if Nat.eqb t t' then (Some k, rest)
      else let '(found, rest') := take_ticket t rest in (found, (t', k) :: rest')
  end.

Definition step (ev : event) (p : pump) : pump * list effect :=
  match ev with
  | Message message currentTime =>
      let '(res, r, out) := onmessage_begin message currentTime (pump_refs p) in
      let waiting :=
        match res with
        | Normal (Some k) => pending p ++ [(arrivals p, k)]
        | _ => pending p
        end in
      ({| pump_refs := r; pending := waiting; arrivals := S (arrivals p) |}, out)
  | DecodeSettled ticket source =>
      match take_ticket ticket (pending p) with
      | (Some k, rest) =>
          let '(_, r, out) := onmessage_resume k source (pump_refs p) in
          ({| pump_refs := r; pending := rest; arrivals := arrivals p |}, out)
      | (None, _) => (p, [])
      end
  | Ended source =>
      let '(_, r, out) := onended source (pump_refs p) in
      ({| pump_refs := r; pending := pending p; arrivals := arrivals p |}, out)
  end.

(** The events of a schedule with the effects each one had. *)
Fixpoint run_log (evs : list event) (p : pump) : list (event * list effect) :=
  match evs with
  | [] => []
  | ev :: rest => let '(p', out) := step ev p in (ev, out) :: run_log rest p'
  end.

Fixpoint run (evs : list event) (p : pump) : pump :=
  match evs with
  | [] => p
  | ev :: rest => run rest (fst (step ev p))
  end.

Definition trace (log : list (event * list effect)) : list effect :=
  List.concat (map snd log).

Definition initial_pump (r : refs) : pump :=
  {| pump_refs := r; pending := []; arrivals := 0 |}.

(** Messages handled one after the other, each decode settling before
    the next message is taken: [(message, currentTime, source)]. *)
Definition handle_all (inputs : list (LiveServerMessage * Z * handle)) : Cb unit :=
  forEach inputs (fun '(message, currentTime, source) =>
                    onmessage message currentTime source).

(** A chunk message whose payload decodes to [b]. *)
Definition decodes_to (message : LiveServerMessage) (b : AudioBuffer) : Prop :=
  interrupted message = false /\
  exists base64Audio data,
    truthy_string (inlineData message) = Some base64Audio /\
    base64ToUint8Array base64Audio = Some data /\
    decodeAudioData data = Some b.

(** A chunk message whose payload does not decode. *)
Definition decode_fails (message : LiveServerMessage) : Prop :=
  interrupted message = false /\
  exists base64Audio,
    truthy_string (inlineData message) = Some base64Audio /\
    match base64ToUint8Array base64Audio with
    | Some data => decodeAudioData data = None
    | None => True
    end.

(** The schedule in which the decode of every message settles before the
    next message is taken; [ticket] numbers the first invocation. *)
Fixpoint one_at_a_time (ticket : nat) (inputs : list (LiveServerMessage * Z * handle))
  : list event :=
  match inputs with
  | [] => []
  | (message, currentTime, source) :: rest =>
      Message message currentTime :: DecodeSettled ticket source
      :: one_at_a_time (S ticket) rest
  end.

(** Strict interruption ordering as the specification states it: once an
    interruption is handled, no invocation that was waiting for its decode
    at that moment starts a buffer. *)
Definition strict_interruption (p0 : pump) (evs : list event) : Prop :=
  forall pre message now post ticket source out,
    evs = pre ++ Message message now :: post ->
    interrupted message = true ->
    In ticket (map fst (pending (run pre p0))) ->
    In (DecodeSettled ticket source, out)
       (run_log post (run (pre ++ [Message message now]) p0)) ->
    forall s b w, ~ In (SourceStart s b w) out.

End WithAudioUtils.

(** *** Reading a trace *)

(** The buffers started, in order: [(when, buffer)]. *)
Fixpoint starts (tr : list effect) : list (Z * AudioBuffer) :=
  match tr with
  | [] => []
  | SourceStart _ b w :: rest => (w, b) :: starts rest
  | _ :: rest => starts rest
  end.

(** The sources on which [stop()] was called, in order. *)
Fixpoint stops (tr : list effect) : list handle :=
  match tr with
  | [] => []
  | SourceStop s :: rest => s :: stops rest
  | _ :: rest => stops rest
  end.

Definition is_interrupt_mark (e : effect) : bool :=
  match e with
  | ConsoleLog msg => String.eqb msg "Interrupted"
  | _ => false
  end.

(** The buffers started, grouped by the interruptions between them: a
    new group opens at every ["Interrupted"] log line. *)
Fixpoint segments (tr : list effect) : list (list (Z * AudioBuffer)) :=
  match tr with
  | [] => [[]]
  | e :: rest =>
      if is_interrupt_mark e then [] :: segments rest
      else
        match e, segments rest with
        | SourceStart _ b w, seg :: segs => ((w, b) :: seg) :: segs
        | SourceStart _ b w, [] => [[(w, b)]]
        | _, segs => segs
        end
  end.

(** The later of two buffers starts no sooner than the earlier ends. *)
Definition follows (x y : Z * AudioBuffer) : Prop :=
  fst x + duration (snd x) <= fst y.

Definition no_overlap (seg : list (Z * AudioBuffer)) : Prop :=
  ForallOrdPairs follows seg.

(** Buffer [x] sounds at instant [t]. *)
Definition playing (t : Z) (x : Z * AudioBuffer) : Prop :=
  fst x <= t < fst x + duration (snd x).

(** The schedule the specification describes for [enqueue]:
    [startTime = max(now, nextFreeTime)], then
    [nextFreeTime = startTime + bufferDuration]. *)
Fixpoint gapless_schedule (nextFreeTime : Z) (arrivals : list (Z * AudioBuffer))
  : list (Z * AudioBuffer) :=
  match arrivals with
  | [] => []
  | (now, b) :: rest =>
      let startTime := Z.max now nextFreeTime in
      (startTime, b) :: gapless_schedule (startTime + duration b) rest
  end.

(** Buffers played back to back from [t]: each starts when the one before
    it ends. *)
Fixpoint back_to_back (t : Z) (buffers : list AudioBuffer) : list (Z * AudioBuffer) :=
  match buffers with
  | [] => []
  | b :: rest => (t, b) :: back_to_back (t + duration b) rest
  end.

(** Every chunk arrives before [nextFreeTime] is reached. *)
Fixpoint in_time (nextFreeTime : Z) (arrivals : list (Z * AudioBuffer)) : Prop :=
  match arrivals with
  | [] => True
  | (now, b) :: rest => now <= nextFreeTime /\ in_time (nextFreeTime + duration b) rest
  end.

(** The clock readings of a list of handled messages. *)
Definition arrival_times (inputs : list (LiveServerMessage * Z * handle)) : list Z :=
  map (fun i => snd (fst i)) inputs.

(** *** Capture: [onaudioprocess], [toggleMute] and the session promise *)

(** The bindings of one render of the function component that the
    callbacks close over: [const [isMuted, setIsMuted] = useState(false)]. *)
Record scope := { scope_isMuted : bool }.

(** [useEffect(() => { connectToLive(); return cleanupAudio; }, [])]: the
    effect runs once, after the first render, so [connectToLive] and the
    callbacks it creates see the bindings of that render, where [isMuted]
    is the initial state of [useState(false)]. *)
Definition mount_scope : scope := {| scope_isMuted := false |}.

Section WithCapture.

(** [createPcmBlob] of [services/audioUtils] is a parameter. *)
Context {Float32Array : Type}.
Context {Blob : Type}.
Variable createPcmBlob : Float32Array -> Blob.

(** [sessionPromise]: while pending it holds the reactions registered
    by [then], oldest first. *)
Inductive promise :=
| Pending (reactions : list Blob)
| Fulfilled
| Rejected.

Record page := {
  isMuted : bool;                       (* the React state *)
  onaudioprocess_scope : option scope;  (* scope of the handler installed at line 101 *)
  sessionPromise : promise;
  microtasks : list Blob;               (* jobs [session.sendRealtimeInput({ media })] *)
  page_refs : refs                      (* the refs, with [streamRef] the microphone stream *)
}.

(** The component at its first render ([useState(false)]), with the refs
    as [connectToLive] fills them. *)
Definition initial_page (r : refs) : page :=
  {| isMuted := false; onaudioprocess_scope := None;
     sessionPromise := Pending []; microtasks := []; page_refs := r |}.

Definition render (p : page) : scope := {| scope_isMuted := isMuted p |}.

(** [toggleMute], lines 189-191: [setIsMuted(!isMuted)]. *)
Definition toggleMute (sc : scope) (p : page) : page :=
  {| isMuted := negb (scope_isMuted sc);
     onaudioprocess_scope := onaudioprocess_scope p;
     sessionPromise := sessionPromise p;
     microtasks := microtasks p;
     page_refs := page_refs p |}.

(** [sessionPromise.then(session => session.sendRealtimeInput(...))] *)
Definition promise_then (media : Blob) (p : page) : page :=
  match sessionPromise p with
  | Pending reactions =>
      {| isMuted := isMuted p; onaudioprocess_scope := onaudioprocess_scope p;
         sessionPromise := Pending (reactions ++ [media]);
         microtasks := microtasks p; page_refs := page_refs p |}
  | Fulfilled =>
      {| isMuted := isMuted p; onaudioprocess_scope := onaudioprocess_scope p;
         sessionPromise := Fulfilled;
         microtasks := microtasks p ++ [media]; page_refs := page_refs p |}
  | Rejected => p
  end.

(** [processor.onaudioprocess], lines 101-118, in the scope it was
    created in.  The level computed for the visualizer is display state
    and is left out. *)
Definition onaudioprocess (sc : scope) (inputData : Float32Array) (p : page) : page :=
  if scope_isMuted sc then p
  else
    let pcmBlob := createPcmBlob inputData in
    promise_then pcmBlob p.

(** [onopen], lines 89-122, created by the [connectToLive] of the mount:
    unless a ref it needs is null, it stores the two nodes it creates and
    installs the handler on the processor.  [setIsConnected] is display
    state and is left out. *)
Definition onopen (sc : scope) (source processor : handle) (p : page) : page :=
  match inputAudioContextRef (page_refs p), streamRef (page_refs p) with
  | Some _, Some _ =>
      {| isMuted := isMuted p; onaudioprocess_scope := Some sc;
         sessionPromise := sessionPromise p;
         microtasks := microtasks p;
         page_refs := set_processorRef (Some processor)
                        (set_sourceNodeRef (Some source) (page_refs p)) |}
  | _, _ => p
  end.

Inductive capture_event :=
| Open (source processor : handle)       (* the SDK calls [onopen]; the nodes it creates *)
| Click                                  (* the mute button: [toggleMute] of the current render *)
| AudioProcess (inputData : Float32Array) (* the processor delivers a frame *)
| Settle (ok : bool)                     (* [sessionPromise] fulfils or rejects *)
| Microtask.                             (* the next queued job runs *)

(** One event; the second component is the packets handed to
    [session.sendRealtimeInput] during it. *)
Definition capture_step (ev : capture_event) (p : page) : page * list Blob :=
  match ev with
  | Open source processor => (onopen mount_scope source processor p, [])
  | Click => (toggleMute (render p) p, [])
  | AudioProcess inputData =>
      match onaudioprocess_scope p with
      | Some sc => (onaudioprocess sc inputData p, [])
      | None => (p, [])
      end
  | Settle ok =>
      match sessionPromise p with
      | Pending reactions =>
          ({| isMuted := isMuted p; onaudioprocess_scope := onaudioprocess_scope p;
              sessionPromise := if ok then Fulfilled else Rejected;
              microtasks := if ok then microtasks p ++ reactions else microtasks p;
              page_refs := page_refs p |}, [])
      | _ => (p, [])
      end
  | Microtask =>
      match microtasks p with
      | media :: rest =>
          ({| isMuted := isMuted p; onaudioprocess_scope := onaudioprocess_scope p;
              sessionPromise := sessionPromise p;
              microtasks := rest; page_refs := page_refs p |}, [media])
      | [] => (p, [])
      end
  end.

Fixpoint capture_run (evs : list capture_event) (p : page) : page * list Blob :=
  match evs with
  | [] => (p, [])
  | ev :: rest =>
      let '(p1, out1) := capture_step ev p in
      let '(p2, out2) := capture_run rest p1 in
      (p2, out1 ++ out2)
  end.

(** The packets handed to [then] and not yet sent, oldest first: the
    queued jobs, then the reactions of the pending promise. *)
Definition queued (p : page) : list Blob :=
  microtasks p ++ match sessionPromise p with
                  | Pending reactions => reactions
                  | _ => []
                  end.

Definition installed (p : page) : bool :=
  match onaudioprocess_scope p with Some _ => true | None => false end.

(** The frames the processor delivered to an installed handler. *)
Fixpoint captured (evs : list capture_event) (p : page) : list Float32Array :=
  match evs with
  | [] => []
  | ev :: rest =>
      match ev with
      | AudioProcess inputData => if installed p then [inputData] else []
      | _ => []
      end ++ captured rest (fst (capture_step ev p))
  end.

(** The handler in place is the one of the mount, or none yet. *)
Definition mount_handler (p : page) : Prop :=
  onaudioprocess_scope p = None \/ onaudioprocess_scope p = Some mount_scope.

End WithCapture.

End LiveSession.

(** ** Concrete sessions

    A stand-in for [services/audioUtils] and a few messages, to run the
    definitions on. *)

Module Scenario.

Import LiveSession.

(** Payloads are kept as they are; ["!"] is no base64. *)
Definition base64ToUint8Array (s : string) : option string :=
  if String.eqb s "!" then None else Some s.

(** ["AAAA"] decodes to 20 ms of audio, nothing else decodes. *)
Definition decodeAudioData (data : string) : option AudioBuffer :=
  if String.eqb data "AAAA" then Some {| frames := 480 |} else None.

Definition stop_ok (_ : handle) : bool := false.
Definition stop_fails (_ : handle) : bool := true.

Definition buffer20ms : AudioBuffer := {| frames := 480 |}.

Definition chunk : LiveServerMessage :=
  {| interrupted := false; inlineData := Some "AAAA" |}.
Definition bad_chunk : LiveServerMessage :=
  {| interrupted := false; inlineData := Some "AAA" |}.
Definition interruption : LiveServerMessage :=
  {| interrupted := true; inlineData := None |}.

(** The refs of a session whose output context is open. *)
Definition open_refs : refs := set_outputAudioContextRef (Some 1%nat) initial_refs.

(** Three chunks arriving at 1000, 1200 and 1480. *)
Definition three_chunks : list (LiveServerMessage * Z * handle) :=
  [(chunk, 1000, 11%nat); (chunk, 1200, 12%nat); (chunk, 1480, 13%nat)].

(** A chunk arrives at 100, the interruption is handled while the chunk is
    still decoding, then the decode settles. *)
Definition racing_schedule : list event :=
  [Message chunk 100; Message interruption 100; DecodeSettled 0 7%nat].

(** Three chunks arrive at 100, 200 and 700 with no interruption; the
    decode of the first settles at once, the decodes of the second and the
    third settle after the third has arrived. *)
Definition late_decodes : list event :=
  [Message chunk 100; DecodeSettled 0 7%nat;
   Message chunk 200; Message chunk 700;
   DecodeSettled 1 8%nat; DecodeSettled 2 9%nat].

(** A chunk arrives at 100 and is still decoding when the interruption
    is handled at 200. *)
Definition interrupted_while_decoding : list event :=
  [Message chunk 100; Message interruption 200].

(** Then the decode settles, and a chunk arrives at 300 and decodes. *)
Definition after_the_interruption : list event :=
  [DecodeSettled 0 7%nat; Message chunk 300; DecodeSettled 2 8%nat].

(** The pump with its anchor set to [t]. *)
Definition anchored_at {bytes : Type} (t : Z) (p : pump (bytes := bytes))
  : pump (bytes := bytes) :=
  {| pump_refs := set_nextStartTimeRef t (pump_refs p);
     pending := pending p;
     arrivals := arrivals p |}.

End Scenario.

(** ** The Gemini service files: [analyzeDiaryEntry]

    [src/unnamed/part_000] is the service with the Gemini provider alone,
    [src/unnamed/part_001] the one that also routes to DeepSeek and
    SiliconFlow.  An [async] function is a computation whose outcome is the
    settled promise: [Normal v] resolved with [v], [Throw e] rejected.  The
    emitted effects are the [console.error] lines. *)

Module Gemini.

Definition Async := M unit string.

Definition lift {A} (o : outcome A) : Async A := fun s => (o, s, []).

Definition run_async {A} (c : Async A) : outcome A := fst (fst (c tt)).

(** JavaScript values as far as the service looks into them. *)
#[local] Unset Elimination Schemes.
Inductive jsval :=
| JUndefined
| JNull
| JBool (b : bool)
| JNumber (n : Z)
| JString (s : string)
| JArray (items : list jsval)
| JObject (fields : list (string * jsval)).
#[local] Set Elimination Schemes.

Fixpoint lookup_field (key : string) (fields : list (string * jsval)) : jsval :=
  match fields with
  | [] => JUndefined
  | (k, v) :: rest => if String.eqb k key then v else lookup_field key rest
  end.

(** [v.key]: a [TypeError] on [undefined] and [null]. *)
Definition get_prop (v : jsval) (key : string) : outcome jsval :=
  match v with
  | JUndefined | JNull => Throw "TypeError"
  | JObject fields => Normal (lookup_field key fields)
  | _ => Normal JUndefined
  end.

(** [v[0]] *)
Definition get_first (v : jsval) : outcome jsval :=
  match v with
  | JUndefined | JNull => Throw "TypeError"
  | JArray items => Normal (hd JUndefined items)
  | JObject fields => Normal (lookup_field "0" fields)
  | JString (String c _) => Normal (JString (String c EmptyString))
  | _ => Normal JUndefined
  end.

Inductive AIProvider := ProviderGemini | ProviderDeepSeek | ProviderSiliconFlow.

Definition is_DeepSeek (p : AIProvider) : bool :=
  match p with ProviderDeepSeek => true | _ => false end.
Definition is_SiliconFlow (p : AIProvider) : bool :=
  match p with ProviderSiliconFlow => true | _ => false end.
Definition is_Gemini (p : AIProvider) : bool :=
  match p with ProviderGemini => true | _ => false end.

(** [AIConfig] of [types.ts]. *)
Record AIConfig := {
  provider : AIProvider;
  apiKey : option string;
  model : option string
}.

Inductive part :=
| InlineData (mimeType data : string)
| Text (text : string).

(** A call [client.models.generateContent] for ["gemini-2.5-flash"] with
    the JSON response schema; [client_key] is [None] for the default
    client. *)
Record generate_request := {
  client_key : option string;
  parts : list part
}.

Record generate_response := { response_text : option string }.

Record chat_message := { role : string; content : string }.

(** A [fetch] of a chat completion. *)
Record fetch_request := {
  url : string;
  authorization : string;
  body_model : string;
  body_messages : list chat_message;
  body_json_mode : bool;
  body_temperature_tenths : Z
}.

Record http_response := {
  ok : bool;
  body_text : outcome string;     (* [await response.text()] *)
  body_json : outcome jsval       (* [await response.json()] *)
}.

Definition dquote : string := String (Ascii.ascii_of_nat 34) EmptyString.

(** Truthiness of an optional string: [undefined] and [""] are falsy. *)
Definition truthy (o : option string) : option string :=
  match o with
  | Some s => if String.eqb s "" then None else Some s
  | None => None
  end.

Definition is_truthy (o : option string) : bool :=
  match truthy o with Some _ => true | None => false end.

Section WithProviders.

(** The network and the built-ins are parameters: any answer, any
    failure. *)
Variable generateContent : generate_request -> outcome generate_response.
Variable fetch : fetch_request -> outcome http_response.
Variable JSON_parse : jsval -> outcome jsval.
(** [att.match(/^data:(\w+\/[\w-.+]+);base64,(.+)$/)]: the two groups. *)
Variable match_data_url : string -> option (string * string).

(** The attachments loop of both versions. *)
Definition attachment_parts (attachments : list string) : list part :=
  flat_map (fun att =>
              match match_data_url att with
              | Some (mime, data) => [InlineData mime data]
              | None => []
              end) attachments.

(** [data.choices[0].message.content] *)
Definition first_choice_content (data : jsval) : outcome jsval :=
  match get_prop data "choices" with
  | Throw e => Throw e
  | Normal choices =>
      match get_first choices with
      | Throw e => Throw e
      | Normal choice =>
          match get_prop choice "message" with
          | Throw e => Throw e
          | Normal message => get_prop message "content"
          end
      end
  end.

(** The body shared by [callDeepSeek] and [callSiliconFlow]. *)
Definition chat_completion (request : fetch_request) (name : string) : Async jsval :=
  try_catch
    (response <- lift (fetch request) ;;
     if negb (ok response) then
       err <- lift (body_text response) ;;
       throw (name ++ " API Error: " ++ err)%string
     else
       data <- lift (body_json response) ;;
       lift (first_choice_content data))
    (fun error => emit (name ++ " Call Failed")%string ;; throw error).

(** [callDeepSeek], part_001 lines 8-36. *)
Definition callDeepSeek (messages : list chat_message) (apiKey : string)
                        (jsonMode : bool) : Async jsval :=
  chat_completion
    {| url := "https://api.deepseek.com/chat/completions";
       authorization := ("Bearer " ++ apiKey)%string;
       body_model := "deepseek-chat";
       body_messages := messages;
       body_json_mode := jsonMode;
       body_temperature_tenths := 13 |}
    "DeepSeek".

(** [callSiliconFlow], part_001 lines 39-70. *)
Definition callSiliconFlow (messages : list chat_message) (apiKey : string)
                           (model : option string) (jsonMode : bool) : Async jsval :=
  let targetModel :=
    match truthy model with Some m => m | None => "deepseek-ai/DeepSeek-V3" end in
  chat_completion
    {| url := "https://api.siliconflow.cn/v1/chat/completions";
       authorization := ("Bearer " ++ apiKey)%string;
       body_model := targetModel;
       body_messages := messages;
       body_json_mode := jsonMode;
       body_temperature_tenths := 7 |}
    "SiliconFlow".

(** [if (response.text) return JSON.parse(response.text); throw ...] *)
Definition parse_response_text (response : generate_response) (msg : string)
  : Async jsval :=
  match truthy (response_text response) with
  | Some text => lift (JSON_parse (JString text))
  | None => throw msg
  end.

(** *** part_000 *)

Definition default_analysis_000 : jsval :=
  JObject [("moodScore", JNumber 5);
           ("tags", JArray [JString "未知"]);
           ("summary", JString "无法分析内容。");
           ("advice", JString "深呼吸，一切都会好起来的。")].

Definition analysis_prompt_000 (text : string) : string :=
  ("分析这篇日记: " ++ dquote ++ text ++ dquote
   ++ "。如果提供了图片或视频，请结合视觉和听觉内容进行分析。")%string.

(** The [try] block of [analyzeDiaryEntry], part_000 lines 21-52. *)
Definition analyze_attempt_000 (text : string) (attachments : list string)
  : Async jsval :=
  let parts := attachment_parts attachments ++ [Text (analysis_prompt_000 text)] in
  response <- lift (generateContent {| client_key := None; parts := parts |}) ;;
  parse_response_text response "No response text".

(** [analyzeDiaryEntry], part_000 lines 19-62. *)
Definition analyzeDiaryEntry_000 (text : string) (attachments : list string)
  : Async jsval :=
  try_catch (analyze_attempt_000 text attachments)
    (fun error => emit "Analysis failed" ;; ret default_analysis_000).

(** *** part_001 *)

Definition default_analysis : jsval :=
  JObject [("moodScore", JNumber 5);
           ("tags", JArray [JString "分析中断"]);
           ("summary", JString "暂时无法分析内容。");
           ("advice", JString "记录本身就是一种疗愈。")].

Definition systemPrompt : string :=
  ("你是一个专业的心理分析助手。请分析用户的日记。
        请严格按照以下 JSON 格式返回结果：
        {
            " ++ dquote ++ "moodScore" ++ dquote ++ ": number (1-10),
            " ++ dquote ++ "tags" ++ dquote ++ ": string[] (3-5个中文标签),
            " ++ dquote ++ "summary" ++ dquote ++ ": string (一句话中文总结),
            " ++ dquote ++ "advice" ++ dquote ++ ": string (一句温柔的建议)
        }")%string.

Definition chat_messages (text : string) : list chat_message :=
  [ {| role := "system"; content := systemPrompt |};
    {| role := "user"; content := text |} ].

(** What [analyzeDiaryEntry] works out before its [try], part_001 lines
    87-94. *)
Record routing := {
  hasAttachments : bool;
  route_provider : AIProvider;
  route_apiKey : option string;
  useDeepSeek : bool;
  useSiliconFlow : bool
}.

Definition route (attachments : list string) (config : option AIConfig) : routing :=
  let hasAttachments := negb (Nat.eqb (List.length attachments) 0) in
  let provider := match config with Some c => provider c | None => ProviderGemini end in
  let apiKey := match config with Some c => apiKey c | None => None end in
  {| hasAttachments := hasAttachments;
     route_provider := provider;
     route_apiKey := apiKey;
     useDeepSeek := is_DeepSeek provider && is_truthy apiKey && negb hasAttachments;
     useSiliconFlow := is_SiliconFlow provider && is_truthy apiKey && negb hasAttachments |}.

(** The [try] block of [analyzeDiaryEntry], part_001 lines 97-171. *)
Definition analyze_attempt (text : string) (attachments : list string)
                           (config : option AIConfig) (rt : routing) : Async jsval :=
  match useDeepSeek rt, useSiliconFlow rt, truthy (route_apiKey rt) with
  | true, _, Some key =>
      content <- callDeepSeek (chat_messages text) key true ;;
      lift (JSON_parse content)
  | false, true, Some key =>
      model <- match config with
               | Some c => ret (model c)
               | None => throw "TypeError"
               end ;;
      content <- callSiliconFlow (chat_messages text) key
                   (Some match truthy model with
                         | Some m => m
                         | None => "deepseek-ai/DeepSeek-V3"
                         end) true ;;
      lift (JSON_parse content)
  | _, _, _ =>
      let provider := route_provider rt in
      let client := if is_Gemini provider then truthy (route_apiKey rt) else None in
      let parts := attachment_parts attachments in
      let promptText := ("分析这篇日记: " ++ dquote ++ text ++ dquote ++ "。")%string in
      let promptText :=
        if hasAttachments rt && (is_DeepSeek provider || is_SiliconFlow provider)
        then (promptText ++ " (注意：由于包含图片/视频，已自动切换回 Gemini 进行多模态分析)")%string
        else promptText in
      let parts := parts ++ [Text promptText] in
      response <- lift (generateContent {| client_key := client; parts := parts |}) ;;
      parse_response_text response "No response text from Gemini"
  end.

(** [analyzeDiaryEntry], part_001 lines 85-181. *)
Definition analyzeDiaryEntry (text : string) (attachments : list string)
                             (config : option AIConfig) : Async jsval :=
  let rt := route attachments config in
  try_catch (analyze_attempt text attachments config rt)
    (fun error => emit "Analysis failed" ;; ret default_analysis).

End WithProviders.

(** [result.moodScore] *)
Definition moodScore (v : jsval) : outcome jsval := get_prop v "moodScore".

End Gemini.

(** ** [LiveSession.tsx]: setting the session up *)

Module LiveSetup.

Import LiveSession.

(** [connectToLive], lines 65-72: the two contexts are created and stored
    before the [await] of [getUserMedia].  [setError] is display state and
    is left out. *)
Definition connectToLive_begin (input output : handle) : Cb unit :=
  modify (set_inputAudioContextRef (Some input)) ;;
  modify (set_outputAudioContextRef (Some output)).

(** [connectToLive], lines 74-180, once [getUserMedia] has settled ([None]
    when it rejects): the stream is stored, [liveClient.connect] returns
    the session promise, which is stored too; a failure is logged. *)
Definition connectToLive_resume (stream : option MediaStream) (session : handle)
  : Cb unit :=
  try_catch
    (match stream with
     | None => throw "NotAllowedError"
     | Some stream =>
         modify (set_streamRef (Some stream)) ;;
         modify (set_sessionRef (Some session))
     end)
    (fun _ => emit (ConsoleError "Setup failed")).

(** [onopen], lines 93-99, as far as the refs go: unless a ref it needs is
    null, the two nodes it creates are stored. *)
Definition onopen_refs (source processor : handle) : Cb unit :=
  r <- get ;;
  match inputAudioContextRef r, streamRef r with
  | Some _, Some _ =>
      modify (set_sourceNodeRef (Some source)) ;;
      modify (set_processorRef (Some processor))
  | _, _ => ret tt
  end.

(** The refs with the schedule (the anchor and the scheduled set) blanked:
    the part the playback callbacks leave alone. *)
Definition without_schedule (r : refs) : refs :=
  set_nextStartTimeRef 0 (set_sourcesRef [] r).

(** Every [stop()] in a trace is called on a source started before it;
    [started] are the sources started before the trace. *)
Fixpoint stops_follow_starts (started : list handle) (tr : list effect) : Prop :=
  match tr with
  | [] => True
  | SourceStart s _ _ :: rest => stops_follow_starts (s :: started) rest
  | SourceStop s :: rest => In s started /\ stops_follow_starts started rest
  | _ :: rest => stops_follow_starts started rest
  end.

(** The audio messages of a schedule: the ones that are no interruption. *)
Definition is_audio_message (ev : event) : bool :=
  match ev with
  | Message message _ => negb (interrupted message)
  | _ => false
  end.

(** The event starts source [s]: a decode settles with [s] as its node. *)
Definition settles_with (s : handle) (ev : event) : bool :=
  match ev with
  | DecodeSettled _ source => Nat.eqb s source
  | _ => false
  end.

End LiveSetup.

(** ** More of the callback monad *)

Module JsMore.

Section Ops.
Context {S E : Type}.

(** [try { body } finally { cleanup }]: [cleanup] runs whatever [body]
    does; a throw of [body] goes on after it. *)
Definition try_finally {A} (body : M S E A) (cleanup : M S E unit) : M S E A :=
  fun s =>
    let '(r, s1, out1) := body s in
    match cleanup s1 with
    | (Normal _, s2, out2) => (r, s2, out1 ++ out2)
    | (Throw e, s2, out2) => (Throw e, s2, out1 ++ out2)
    end.

(** An outcome that is already there. *)
Definition settled {A} (o : outcome A) : M S E A := fun s => (o, s, []).

End Ops.

(** A computation on a part of the state; [put] stores the part back. *)
Definition zoom {S T E A} (part : S -> T) (put : T -> S -> S) (c : M T E A) : M S E A :=
  fun s => let '(r, t, out) := c (part s) in (r, put t s, out).

(** A computation without state of its own, with its effects renamed. *)
Definition embed {S E F A} (rename : E -> F) (c : M unit E A) : M S F A :=
  fun s => let '(r, _, out) := c tt in (r, s, map rename out).

(** [n.toString()] of an integer. *)
Definition toString (n : Z) : string :=
  DecimalString.NilZero.string_of_int (Z.to_int n).

End JsMore.

(** ** The service files: transcription, the daily joke, the chat *)

Module Service.

Import Gemini JsMore.

(** JavaScript truthiness. *)
Definition truthy_js (v : jsval) : bool :=
  match v with
  | JUndefined | JNull => false
  | JBool b => b
  | JNumber n => negb (Z.eqb n 0)
  | JString s => negb (String.eqb s "")
  | JArray _ | JObject _ => true
  end.

(** [v || d] *)
Definition or_else (v d : jsval) : jsval := if truthy_js v then v else d.

(** A call [client.models.generateContent] for ["gemini-2.5-flash"]
    without a response schema. *)
Record text_request := {
  text_client : option string;
  text_parts : list part
}.

(** A message of a chat completion: the content is whatever the provider
    answered. *)
Record turn := { turn_role : string; turn_content : jsval }.

Record chat_request := {
  chat_url : string;
  chat_authorization : string;
  chat_model : string;
  chat_turns : list turn;
  chat_json_mode : bool;
  chat_temperature_tenths : Z
}.

(** The chat object of the SDK ([client.chats.create]): its client, its
    system instruction and the number of messages sent on it. *)
Record gemini_chat := {
  gc_client : option string;
  gc_systemInstruction : string;
  gc_calls : nat
}.

(** The class [MultiProviderChat], part_001 lines 226-232. *)
Record MultiProviderChat := {
  this_provider : AIProvider;
  this_apiKey : option string;
  this_customModel : option string;
  this_geminiChat : option gemini_chat;       (* [undefined] unless the provider is Gemini *)
  this_chatHistory : option (list turn);      (* [undefined] when the provider is Gemini *)
  this_systemInstruction : string
}.

Definition set_chatHistory (h : list turn) (this : MultiProviderChat) : MultiProviderChat :=
  {| this_provider := this_provider this; this_apiKey := this_apiKey this;
     this_customModel := this_customModel this;
     this_geminiChat := this_geminiChat this;
     this_chatHistory := Some h;
     this_systemInstruction := this_systemInstruction this |}.

Definition set_geminiChat (c : gemini_chat) (this : MultiProviderChat) : MultiProviderChat :=
  {| this_provider := this_provider this; this_apiKey := this_apiKey this;
     this_customModel := this_customModel this;
     this_geminiChat := Some c;
     this_chatHistory := this_chatHistory this;
     this_systemInstruction := this_systemInstruction this |}.

(** A template literal prints [undefined] for a missing value. *)
Definition interpolate (o : option string) : string :=
  match o with Some s => s | None => "undefined" end.

Definition joke_when_silent : string := "今天的天气真不错！(AI 似乎在发呆)".
Definition joke_when_failed : string :=
  "如果你能看到这条消息，说明冷笑话正在赶来的路上。".
Definition deepseek_trouble : string := "连接 DeepSeek 时出现问题，请检查 API Key。".
Definition siliconflow_trouble : string := "连接 SiliconFlow 时出现问题，请检查配置。".

(** The template of the constructor, part_001 lines 239-241. *)
Definition system_instruction (context : string) : string :=
  ("你是一个温暖、富有同理心的心理健康助手。
        你可以访问用户的近期日记: "
   ++ (if String.eqb context "" then "用户暂时没有近期日记" else context)
   ++ "。
        请用中文回答，保持回答简洁、像朋友一样自然且支持性强。")%string.

Definition system_turn (this : MultiProviderChat) : turn :=
  {| turn_role := "system"; turn_content := JString (this_systemInstruction this) |}.
Definition user_turn (message : string) : turn :=
  {| turn_role := "user"; turn_content := JString message |}.
Definition assistant_turn (responseText : jsval) : turn :=
  {| turn_role := "assistant"; turn_content := responseText |}.

(** The constructor, part_001 lines 234-255. *)
Definition new_MultiProviderChat (context : string) (config : option AIConfig)
  : MultiProviderChat :=
  let provider := match config with Some c => provider c | None => ProviderGemini end in
  let apiKey := match config with Some c => apiKey c | None => None end in
  let customModel := match config with Some c => model c | None => None end in
  let instruction := system_instruction context in
  match provider with
  | ProviderGemini =>
      {| this_provider := provider; this_apiKey := apiKey;
         this_customModel := customModel;
         this_geminiChat := Some {| gc_client := truthy apiKey;
                                    gc_systemInstruction := instruction;
                                    gc_calls := 0 |};
         this_chatHistory := None;
         this_systemInstruction := instruction |}
  | _ =>
      {| this_provider := provider; this_apiKey := apiKey;
         this_customModel := customModel;
         this_geminiChat := None;
         this_chatHistory := Some [ {| turn_role := "system";
                                       turn_content := JString instruction |} ];
         this_systemInstruction := instruction |}
  end.

(** [createChatSession], part_001 lines 286-288. *)
Definition createChatSession (historyContext : string) (config : option AIConfig)
  : MultiProviderChat :=
  new_MultiProviderChat historyContext config.

Section WithProviders.

(** The network and [String.prototype.trim] are parameters. *)
Variable generateText : text_request -> outcome generate_response.
Variable fetch_chat : chat_request -> outcome http_response.
Variable gemini_sendMessage : gemini_chat -> string -> outcome generate_response.
Variable trim : string -> string.

Definition transcription_prompt : string :=
  "请将这段音频准确转录为中文文本。直接输出内容，不要包含 markdown 格式或其他解释。".

(** The [try] of [transcribeAudio] in both versions: [response.text || ""],
    a failure logged and thrown again. *)
Definition transcribe_with (client : option string) (base64Audio mimeType : string)
  : Async string :=
  try_catch
    (response <- lift (generateText
                         {| text_client := client;
                            text_parts := [InlineData mimeType base64Audio;
                                           Text transcription_prompt] |}) ;;
     ret (match truthy (response_text response) with
          | Some text => text
          | None => ""
          end))
    (fun error => emit "Transcription failed" ;; throw error).

(** [transcribeAudio], part_000 lines 64-80. *)
Definition transcribeAudio_000 (base64Audio mimeType : string) : Async string :=
  transcribe_with None base64Audio mimeType.

(** [transcribeAudio], part_001 lines 183-204. *)
Definition transcribeAudio (base64Audio mimeType : string) (config : option AIConfig)
  : Async string :=
  let client :=
    match config with
    | Some c => if is_Gemini (provider c) then truthy (apiKey c) else None
    | None => None
    end in
  transcribe_with client base64Audio mimeType.

Definition joke_prompt : string :=
  "讲一个适合放在应用首页的简短幽默冷笑话。仅返回笑话内容，不包含标题或其他解释。".

(** [fetchDailyJoke], part_000 lines 82-97 and part_001 lines 206-222:
    [response.text?.trim() || "..."]. *)
Definition fetchDailyJoke : Async string :=
  try_catch
    (response <- lift (generateText {| text_client := None;
                                       text_parts := [Text joke_prompt] |}) ;;
     ret (match response_text response with
          | Some text => if String.eqb (trim text) "" then joke_when_silent else trim text
          | None => joke_when_silent
          end))
    (fun _ => emit "Failed to fetch joke" ;; ret joke_when_failed).

(** The body shared by [callDeepSeek] and [callSiliconFlow], on the
    history of a chat. *)
Definition chat_call (request : chat_request) (name : string) : Async jsval :=
  try_catch
    (response <- lift (fetch_chat request) ;;
     if negb (ok response) then
       err <- lift (body_text response) ;;
       throw (name ++ " API Error: " ++ err)%string
     else
       data <- lift (body_json response) ;;
       lift (first_choice_content data))
    (fun error => emit (name ++ " Call Failed")%string ;; throw error).

(** [callDeepSeek(this.chatHistory, this.apiKey!)] *)
Definition callDeepSeek_chat (messages : list turn) (apiKey : option string)
  : Async jsval :=
  chat_call
    {| chat_url := "https://api.deepseek.com/chat/completions";
       chat_authorization := ("Bearer " ++ interpolate apiKey)%string;
       chat_model := "deepseek-chat";
       chat_turns := messages;
       chat_json_mode := false;
       chat_temperature_tenths := 13 |}
    "DeepSeek".

(** [callSiliconFlow(this.chatHistory, this.apiKey!, this.customModel!)] *)
Definition callSiliconFlow_chat (messages : list turn) (apiKey model : option string)
  : Async jsval :=
  chat_call
    {| chat_url := "https://api.siliconflow.cn/v1/chat/completions";
       chat_authorization := ("Bearer " ++ interpolate apiKey)%string;
       chat_model := match truthy model with
                     | Some m => m
                     | None => "deepseek-ai/DeepSeek-V3"
                     end;
       chat_turns := messages;
       chat_json_mode := false;
       chat_temperature_tenths := 7 |}
    "SiliconFlow".

Definition Method := M MultiProviderChat string.

(** [this.chatHistory.push(turn)] *)
Definition push_turn (t : turn) : Method unit :=
  this <- get ;;
  match this_chatHistory this with
  | Some h => modify (set_chatHistory (h ++ [t]))
  | None => throw "TypeError"
  end.

(** The two branches of [sendMessage] that keep their own history,
    part_001 lines 261-281. *)
Definition send_with_history (call : list turn -> Async jsval)
                             (label trouble : string) (message : string)
  : Method jsval :=
  push_turn (user_turn message) ;;
  try_catch
    (this <- get ;;
     responseText <- embed (fun line => line)
                       (call match this_chatHistory this with
                             | Some h => h
                             | None => []
                             end) ;;
     push_turn (assistant_turn responseText) ;;
     ret responseText)
    (fun _ => emit label ;; ret (JString trouble)).

(** [sendMessage], part_001 lines 257-283. *)
Definition sendMessage (message : string) : Method jsval :=
  this <- get ;;
  match this_provider this with
  | ProviderGemini =>
      match this_geminiChat this with
      | None => throw "TypeError"
      | Some chat =>
          modify (set_geminiChat {| gc_client := gc_client chat;
                                    gc_systemInstruction := gc_systemInstruction chat;
                                    gc_calls := S (gc_calls chat) |}) ;;
          result <- settled (gemini_sendMessage chat message) ;;
          ret (match response_text result with
               | Some text => JString text
               | None => JUndefined
               end)
      end
  | ProviderDeepSeek =>
      send_with_history (fun h => callDeepSeek_chat h (this_apiKey this))
                        "DeepSeek Chat Error" deepseek_trouble message
  | ProviderSiliconFlow =>
      send_with_history (fun h => callSiliconFlow_chat h (this_apiKey this)
                                    (this_customModel this))
                        "SiliconFlow Chat Error" siliconflow_trouble message
  end.

(** Messages sent one after the other; the replies, in order. *)
Fixpoint send_all (messages : list string) : Method (list jsval) :=
  match messages with
  | [] => ret []
  | message :: rest =>
      reply <- sendMessage message ;;
      replies <- send_all rest ;;
      ret (reply :: replies)
  end.

End WithProviders.

(** The history a chat keeps, [[]] when it keeps none. *)
Definition history_of (this : MultiProviderChat) : list turn :=
  match this_chatHistory this with Some h => h | None => [] end.

Definition is_user_turn (t : turn) : bool := String.eqb (turn_role t) "user".

(** No reply of the assistant stands first or directly after another
    reply. *)
Fixpoint replies_follow_questions (after_user : bool) (h : list turn) : Prop :=
  match h with
  | [] => True
  | t :: rest =>
      if String.eqb (turn_role t) "assistant"
      then after_user = true /\ replies_follow_questions false rest
      else replies_follow_questions (is_user_turn t) rest
  end.

(** What the two branches of [sendMessage] that keep a history differ
    in: the helper they call (it logs [name ++ " Call Failed"] when it
    rejects), the line [sendMessage] logs and the sentence it returns
    then.  The Gemini branch keeps no history. *)
Record branch := {
  branch_name : string;
  branch_call : list turn -> Async jsval;
  branch_log : string;
  branch_trouble : string
}.

Definition branch_of (fetch_chat : chat_request -> outcome http_response)
                     (this : MultiProviderChat) : option branch :=
  match this_provider this with
  | ProviderGemini => None
  | ProviderDeepSeek =>
      Some {| branch_name := "DeepSeek";
              branch_call := fun h => callDeepSeek_chat fetch_chat h (this_apiKey this);
              branch_log := "DeepSeek Chat Error";
              branch_trouble := deepseek_trouble |}
  | ProviderSiliconFlow =>
      Some {| branch_name := "SiliconFlow";
              branch_call := fun h => callSiliconFlow_chat fetch_chat h (this_apiKey this)
                                        (this_customModel this);
              branch_log := "SiliconFlow Chat Error";
              branch_trouble := siliconflow_trouble |}
  end.

(** The conversation that the outcomes of the calls determine: the
    replies to [messages] and the history after them, from the history
    [h].  A call that resolves puts the question and the answer in the
    history; a call that rejects leaves the question there without an
    answer and is replied to with [trouble]. *)
Fixpoint conversation (call : list turn -> outcome jsval) (trouble : string)
                      (h : list turn) (messages : list string)
  : list jsval * list turn :=
  match messages with
  | [] => ([], h)
  | message :: rest =>
      let asked := h ++ [user_turn message] in
      match call asked with
      | Normal reply =>
          let '(replies, h') :=
            conversation call trouble (asked ++ [assistant_turn reply]) rest in
          (reply :: replies, h')
      | Throw _ =>
          let '(replies, h') := conversation call trouble asked rest in
          (JString trouble :: replies, h')
      end
  end.

End Service.

(** ** [ChatAssistant.tsx]: the chat panel

    A handler closes over the state of the render that created it
    ([seen]); [chatSessionRef] is a ref and is read when the handler runs.
    The handler is run to its end with nothing else in between. *)

Module ChatAssistant.

Import Gemini JsMore Service.

Inductive Role := RoleUser | RoleModel.      (* ['user' | 'model'] *)

(** [ChatMessage] of [types.ts]; at run time [text] holds whatever the
    provider answered. *)
Record ChatMessage := {
  msg_id : string;
  msg_role : Role;
  msg_text : jsval;
  msg_timestamp : Z
}.

Record assistant := {
  messages : list ChatMessage;
  input : string;
  isLoading : bool;
  chatSessionRef : option MultiProviderChat
}.

(** [setMessages(prev => [...prev, msg])] *)
Definition add_message (msg : ChatMessage) (st : assistant) : assistant :=
  {| messages := messages st ++ [msg]; input := input st; isLoading := isLoading st;
     chatSessionRef := chatSessionRef st |}.

Definition setInput (text : string) (st : assistant) : assistant :=
  {| messages := messages st; input := text; isLoading := isLoading st;
     chatSessionRef := chatSessionRef st |}.

Definition setIsLoading (b : bool) (st : assistant) : assistant :=
  {| messages := messages st; input := input st; isLoading := b;
     chatSessionRef := chatSessionRef st |}.

Definition set_chatSessionRef (o : option MultiProviderChat) (st : assistant) : assistant :=
  {| messages := messages st; input := input st; isLoading := isLoading st;
     chatSessionRef := o |}.

Definition still_listening : string := "我在听...".
Definition connection_trouble : string := "连接好像出了点问题，请稍后再试。".

Section WithProviders.

Variable fetch_chat : chat_request -> outcome http_response.
Variable gemini_sendMessage : gemini_chat -> string -> outcome generate_response.
Variable trim : string -> string.

(** [chatSessionRef.current.method(...)] *)
Definition on_session {A} (method : Method A) : M assistant string A :=
  fun st =>
    match chatSessionRef st with
    | Some this =>
        let '(r, this', out) := method this in
        (r, set_chatSessionRef (Some this') st, out)
    | None => (Throw "TypeError", st, [])
    end.

(** The guard of [handleSend], line 38. *)
Definition accepts (seen : assistant) : bool :=
  negb (String.eqb (trim (input seen)) "" || isLoading seen).

(** [handleSend], lines 37-79.  [aiConfig] is the prop; the four numbers
    are the readings of [Date.now()], in the order they are taken. *)
Definition handleSend (aiConfig : option AIConfig) (seen : assistant)
                      (now1 now2 now3 now4 : Z) : M assistant string unit :=
  if negb (accepts seen) then ret tt
  else
    let userMsg := {| msg_id := toString now1; msg_role := RoleUser;
                      msg_text := JString (input seen); msg_timestamp := now2 |} in
    modify (add_message userMsg) ;;
    modify (setInput "") ;;
    modify (setIsLoading true) ;;
    try_finally
      (try_catch
         (st <- get ;;
          (match chatSessionRef st with
           | None => modify (set_chatSessionRef
                               (Some (createChatSession "用户暂无近期日记。" aiConfig)))
           | Some _ => ret tt
           end) ;;
          responseText <- on_session (sendMessage fetch_chat gemini_sendMessage
                                                  (input seen)) ;;
          modify (add_message
                    {| msg_id := toString (now3 + 1); msg_role := RoleModel;
                       msg_text := or_else responseText (JString still_listening);
                       msg_timestamp := now4 |}))
         (fun e =>
            emit e ;;
            modify (add_message
                      {| msg_id := toString (now3 + 1); msg_role := RoleModel;
                         msg_text := JString connection_trouble;
                         msg_timestamp := now4 |})))
      (modify (setIsLoading false)).

End WithProviders.

End ChatAssistant.

(** ** [App.tsx]: saving an entry, dictation, the daily joke *)

Module App.

Import Gemini JsMore Service.

Inductive AppView := DASHBOARD | NEW_ENTRY | CHAT | LIVE_SESSION | SETTINGS.

(** [DiaryEntry] of [types.ts]; the four fields of the analysis hold at
    run time whatever the analysis held. *)
Record DiaryEntry := {
  entry_id : string;
  entry_content : string;
  entry_date : string;
  entry_moodScore : jsval;
  entry_tags : jsval;
  entry_summary : jsval;
  entry_advice : jsval;
  entry_attachments : list string
}.

Record DailyJoke := { joke_date : string; joke_content : string }.

(** The state of [App] that the three handlers read or write. *)
Record app := {
  view : AppView;
  entries : list DiaryEntry;
  newEntryText : string;
  newEntryAttachments : list string;
  isAnalyzing : bool;
  dailyJoke : option DailyJoke;
  showDateFilter : bool;
  filterDate : string;
  isTranscribing : bool
}.

Definition setView (v : AppView) (st : app) : app :=
  {| view := v; entries := entries st; newEntryText := newEntryText st;
     newEntryAttachments := newEntryAttachments st; isAnalyzing := isAnalyzing st;
     dailyJoke := dailyJoke st; showDateFilter := showDateFilter st;
     filterDate := filterDate st; isTranscribing := isTranscribing st |}.

Definition setEntries (l : list DiaryEntry) (st : app) : app :=
  {| view := view st; entries := l; newEntryText := newEntryText st;
     newEntryAttachments := newEntryAttachments st; isAnalyzing := isAnalyzing st;
     dailyJoke := dailyJoke st; showDateFilter := showDateFilter st;
     filterDate := filterDate st; isTranscribing := isTranscribing st |}.

Definition setNewEntryText (text : string) (st : app) : app :=
  {| view := view st; entries := entries st; newEntryText := text;
     newEntryAttachments := newEntryAttachments st; isAnalyzing := isAnalyzing st;
     dailyJoke := dailyJoke st; showDateFilter := showDateFilter st;
     filterDate := filterDate st; isTranscribing := isTranscribing st |}.

Definition setNewEntryAttachments (l : list string) (st : app) : app :=
  {| view := view st; entries := entries st; newEntryText := newEntryText st;
     newEntryAttachments := l; isAnalyzing := isAnalyzing st;
     dailyJoke := dailyJoke st; showDateFilter := showDateFilter st;
     filterDate := filterDate st; isTranscribing := isTranscribing st |}.

Definition setIsAnalyzing (b : bool) (st : app) : app :=
  {| view := view st; entries := entries st; newEntryText := newEntryText st;
     newEntryAttachments := newEntryAttachments st; isAnalyzing := b;
     dailyJoke := dailyJoke st; showDateFilter := showDateFilter st;
     filterDate := filterDate st; isTranscribing := isTranscribing st |}.

Definition setDailyJoke (j : option DailyJoke) (st : app) : app :=
  {| view := view st; entries := entries st; newEntryText := newEntryText st;
     newEntryAttachments := newEntryAttachments st; isAnalyzing := isAnalyzing st;
     dailyJoke := j; showDateFilter := showDateFilter st;
     filterDate := filterDate st; isTranscribing := isTranscribing st |}.

Definition setShowDateFilter (b : bool) (st : app) : app :=
  {| view := view st; entries := entries st; newEntryText := newEntryText st;
     newEntryAttachments := newEntryAttachments st; isAnalyzing := isAnalyzing st;
     dailyJoke := dailyJoke st; showDateFilter := b;
     filterDate := filterDate st; isTranscribing := isTranscribing st |}.

Definition setFilterDate (d : string) (st : app) : app :=
  {| view := view st; entries := entries st; newEntryText := newEntryText st;
     newEntryAttachments := newEntryAttachments st; isAnalyzing := isAnalyzing st;
     dailyJoke := dailyJoke st; showDateFilter := showDateFilter st;
     filterDate := d; isTranscribing := isTranscribing st |}.

Definition setIsTranscribing (b : bool) (st : app) : app :=
  {| view := view st; entries := entries st; newEntryText := newEntryText st;
     newEntryAttachments := newEntryAttachments st; isAnalyzing := isAnalyzing st;
     dailyJoke := dailyJoke st; showDateFilter := showDateFilter st;
     filterDate := filterDate st; isTranscribing := b |}.

(** What the handlers do to the world. *)
Inductive effect :=
| ConsoleError (line : string)
| Alert (text : string)
| TrackStop (track : nat)                 (* [track.stop()] *)
| StoreJoke (joke : DailyJoke).           (* [localStorage.setItem('mindful_moments_joke', ...)] *)

Definition analysis_failed : string := "分析失败，请重试。".
Definition transcription_failed : string := "语音转录失败".

Section WithServices.

(** The import [analyzeDiaryEntry] of the service, called with the text
    and the attachments: either version of the service file. *)
Variable analyzeDiaryEntry : string -> list string -> Async jsval.
Variable generateText : text_request -> outcome generate_response.
Variable trim : string -> string.
(** [entryDate.toISOString()], from the reading of the clock and
    [filterDate]; it throws a [RangeError] on an invalid date. *)
Variable toISOString : Z -> string -> outcome string.

(** The guard of [handleSaveEntry], line 252. *)
Definition nothing_to_save (seen : app) : bool :=
  String.eqb (trim (newEntryText seen)) ""
  && Nat.eqb (List.length (newEntryAttachments seen)) 0.

(** [handleSaveEntry], lines 251-291; [now_date] and [now_id] are the
    readings of the clock by [new Date()] and [Date.now()]. *)
Definition handleSaveEntry (seen : app) (now_date now_id : Z) : M app effect unit :=
  if nothing_to_save seen then ret tt
  else
    modify (setIsAnalyzing true) ;;
    try_finally
      (try_catch
         (analysis <- embed ConsoleError
                        (analyzeDiaryEntry (newEntryText seen)
                                           (newEntryAttachments seen)) ;;
          date <- settled (toISOString now_date (filterDate seen)) ;;
          moodScore <- settled (get_prop analysis "moodScore") ;;
          tags <- settled (get_prop analysis "tags") ;;
          summary <- settled (get_prop analysis "summary") ;;
          advice <- settled (get_prop analysis "advice") ;;
          let newEntry :=
            {| entry_id := toString now_id;
               entry_content := newEntryText seen;
               entry_date := date;
               entry_moodScore := or_else moodScore (JNumber 5);
               entry_tags := or_else tags (JArray []);
               entry_summary := or_else summary (JString "暂无总结");
               entry_advice := or_else advice (JString "继续加油！");
               entry_attachments := newEntryAttachments seen |} in
          modify (setEntries (newEntry :: entries seen)) ;;
          modify (setNewEntryText "") ;;
          modify (setNewEntryAttachments []) ;;
          modify (setFilterDate "") ;;
          modify (setShowDateFilter false) ;;
          modify (setView DASHBOARD))
         (fun e => emit (ConsoleError e) ;; emit (Alert analysis_failed)))
      (modify (setIsAnalyzing false)).

(** [mediaRecorder.onstop], lines 319-335.  [recorded] is the recording
    as base64 ([audioBlob.arrayBuffer()] may reject), [stream] the tracks
    of the microphone stream. *)
Definition onstop (stream : list nat) (recorded : outcome string) : M app effect unit :=
  base64Audio <- settled recorded ;;
  modify (setIsTranscribing true) ;;
  try_finally
    (try_catch
       (text <- embed ConsoleError
                  (transcribeAudio generateText base64Audio "audio/webm" None) ;;
        modify (fun st =>
                  setNewEntryText
                    (if String.eqb (newEntryText st) "" then text
                     else (newEntryText st ++ " " ++ text)%string) st))
       (fun e => emit (ConsoleError e) ;; emit (Alert transcription_failed)))
    (modify (setIsTranscribing false) ;;
     forEach stream (fun track => emit (TrackStop track))).

(** The guard of [checkAndFetchJoke], line 214. *)
Definition needs_joke (seen : app) (today : string) : bool :=
  match dailyJoke seen with
  | None => true
  | Some joke => negb (String.eqb (joke_date joke) today)
  end.

(** [checkAndFetchJoke], lines 212-221; [today] is
    [new Date().toLocaleDateString('zh-CN')].  The [try] around
    [localStorage.setItem] has an empty [catch]. *)
Definition checkAndFetchJoke (seen : app) (today : string) : M app effect unit :=
  if needs_joke seen today then
    jokeContent <- embed ConsoleError (fetchDailyJoke generateText trim) ;;
    let newJoke := {| joke_date := today; joke_content := jokeContent |} in
    modify (setDailyJoke (Some newJoke)) ;;
    emit (StoreJoke newJoke)
  else ret tt.

End WithServices.

Definition alerts (out : list effect) : list string :=
  flat_map (fun e => match e with Alert text => [text] | _ => [] end) out.

Definition track_stops (out : list effect) : list nat :=
  flat_map (fun e => match e with TrackStop track => [track] | _ => [] end) out.

End App.

(** ** Concrete providers, sessions and drafts *)

Module Examples.

Import Gemini JsMore Service.

(** A network that cannot be reached. *)
Definition offline {A B : Type} (_ : A) : outcome B := Throw "TypeError: Failed to fetch".

Definition gemini_offline (_ : gemini_chat) (_ : string) : outcome generate_response :=
  offline tt.

(** [trim] on the strings used below, which have nothing to trim. *)
Definition nothing_to_trim (s : string) : string := s.

(** A chat completion that answers every request with the same sentence. *)
Definition fetch_answers (_ : chat_request) : outcome http_response :=
  Normal {| ok := true;
            body_text := Normal "";
            body_json :=
              Normal (JObject
                        [("choices",
                          JArray [JObject
                                    [("message",
                                      JObject [("content", JString "我在这里。")])]])]) |}.

(** A chat completion that answers the first question of a chat and
    cannot be reached afterwards. *)
Definition fetch_first_only (request : chat_request) : outcome http_response :=
  if Nat.eqb (List.length (chat_turns request)) 2 then fetch_answers request
  else offline request.

Definition deepseek : AIConfig :=
  {| provider := ProviderDeepSeek; apiKey := Some "sk-example"; model := None |}.

Definition deepseek_session : MultiProviderChat := createChatSession "" (Some deepseek).

Definition gemini_session : MultiProviderChat := createChatSession "" None.

(** The panel with a question typed in. *)
Definition panel (session : MultiProviderChat) : ChatAssistant.assistant :=
  {| ChatAssistant.messages := [];
     ChatAssistant.input := "你好";
     ChatAssistant.isLoading := false;
     ChatAssistant.chatSessionRef := Some session |}.

(** The diary with a draft and no entry yet. *)
Definition draft : App.app :=
  {| App.view := App.NEW_ENTRY;
     App.entries := [];
     App.newEntryText := "今天有点累";
     App.newEntryAttachments := [];
     App.isAnalyzing := false;
     App.dailyJoke := None;
     App.showDateFilter := false;
     App.filterDate := "";
     App.isTranscribing := false |}.

(** A provider whose answer is the JSON text [null]. *)
Definition answers_null (_ : generate_request) : outcome generate_response :=
  Normal {| response_text := Some "null" |}.

(** [JSON.parse] on the one text it is given below. *)
Definition JSON_parse (v : jsval) : outcome jsval :=
  match v with
  | JString s => if String.eqb s "null" then Normal JNull else Throw "SyntaxError"
  | _ => Throw "SyntaxError"
  end.

(** A Gemini that answers through the default client only. *)
Definition default_client_only (request : generate_request) : outcome generate_response :=
  match client_key request with
  | None => answers_null request
  | Some _ => offline request
  end.

(** A chat completion whose body is the JSON text [null]. *)
Definition fetch_null (_ : fetch_request) : outcome http_response :=
  Normal {| ok := true; body_text := Normal "null"; body_json := Normal JNull |}.

Definition photo : string := "data:image/png;base64,AAAA".

Definition no_data_url (_ : string) : option (string * string) := None.

Definition toISOString (_ : Z) (_ : string) : outcome string :=
  Normal "2024-05-01T08:00:00.000Z".

(** A session in which the buffer of source 7 is playing. *)
Definition playing_pump : LiveSession.pump :=
  LiveSession.run Scenario.base64ToUint8Array Scenario.decodeAudioData Scenario.stop_ok
    [LiveSession.Message Scenario.chunk 100; LiveSession.DecodeSettled 0 7%nat]
    (LiveSession.initial_pump Scenario.open_refs).

End Examples.

(** * Properties *)

Import LiveSession.

(** ** The callback monad *)

Lemma bind_run {S E A B} (m : M S E A) (k : A -> M S E B) (s s1 : S) (a : A)
      (out1 : list E) :
  m s = (Normal a, s1, out1) ->
  bind m k s = (outcome_of (k a s1), state_of (k a s1), out1 ++ effects_of (k a s1)).
Proof.
  intros H. unfold bind. rewrite H. destruct (k a s1) as [[res s2] out2]. reflexivity.
Qed.

(** ** The playback scheduler *)

Section PlaybackFacts.

Context {bytes : Type}.
Variable base64ToUint8Array : string -> option bytes.
Variable decodeAudioData : bytes -> option AudioBuffer.
Variable stop_throws : handle -> bool.

Local Abbreviation onmessage_begin := (onmessage_begin base64ToUint8Array stop_throws).
Local Abbreviation onmessage_resume := (onmessage_resume decodeAudioData).
Local Abbreviation onmessage := (onmessage base64ToUint8Array decodeAudioData stop_throws).
Local Abbreviation handle_all := (handle_all base64ToUint8Array decodeAudioData stop_throws).
Local Abbreviation decodes_to := (decodes_to base64ToUint8Array decodeAudioData).
Local Abbreviation decode_fails := (decode_fails base64ToUint8Array decodeAudioData).
Local Abbreviation step := (step base64ToUint8Array decodeAudioData stop_throws).
Local Abbreviation run := (run base64ToUint8Array decodeAudioData stop_throws).
Local Abbreviation run_log := (run_log base64ToUint8Array decodeAudioData stop_throws).
Local Abbreviation cleanupAudio := (cleanupAudio stop_throws).

Lemma guarded_stop_run (source : handle) (r : refs) :
  try_catch (source_stop stop_throws source) (fun _ => ret tt) r
  = (Normal tt, r, [SourceStop source]).
Proof.
  unfold try_catch, source_stop, bind, emit, throw, ret.
  destruct (stop_throws source); reflexivity.
Qed.

Lemma guarded_stop_loop (l : list handle) (r : refs) :
  forEach l (fun source => try_catch (source_stop stop_throws source) (fun _ => ret tt)) r
  = (Normal tt, r, map SourceStop l).
Proof.
  induction l as [|s l IH]; [reflexivity|].
  cbn [forEach]. unfold bind at 1.
  rewrite guarded_stop_run, IH. reflexivity.
Qed.

Lemma stop_all_sources_run (r : refs) :
  stop_all_sources stop_throws r = (Normal tt, r, map SourceStop (sourcesRef r)).
Proof.
  unfold stop_all_sources, bind, get. rewrite guarded_stop_loop. reflexivity.
Qed.

(** Without the [try] around it, the first failing [stop()] would leave
    the loop: this is what the guard of lines 50 and 128 prevents. *)
Lemma unguarded_stop_aborts (s : handle) (l : list handle) (r : refs) :
  stop_throws s = true ->
  forEach (s :: l) (source_stop stop_throws) r
  = (Throw "InvalidStateError", r, [SourceStop s]).
Proof.
  intros H. cbn [forEach]. unfold bind at 1.
  unfold source_stop, bind, emit, throw. rewrite H. reflexivity.
Qed.

Lemma interrupt_run (message : LiveServerMessage) (now : Z) (r : refs) :
  interrupted message = true ->
  onmessage_begin message now r
  = (Normal None, set_nextStartTimeRef 0 (set_sourcesRef [] r),
     ConsoleLog "Interrupted" :: map SourceStop (sourcesRef r)).
Proof.
  intros H. unfold LiveSession.onmessage_begin. rewrite H.
  unfold bind at 1. unfold emit at 1.
  unfold bind at 1. rewrite stop_all_sources_run.
  unfold bind, modify, ret. cbn. rewrite app_nil_r. reflexivity.
Qed.

(** A message that is no interruption, up to the [await]. *)
Lemma chunk_begin_run (message : LiveServerMessage) (now : Z) (r : refs) :
  interrupted message = false ->
  onmessage_begin message now r
  = match truthy_string (inlineData message), outputAudioContextRef r with
    | Some base64Audio, Some ctx =>
        let r' := set_nextStartTimeRef (Z.max (nextStartTimeRef r) now) r in
        match base64ToUint8Array base64Audio with
        | Some data => (Normal (Some {| k_ctx := ctx; k_data := data |}), r', [])
        | None => (Normal None, r', [ConsoleError "Audio decode error"])
        end
    | _, _ => (Normal None, r, [])
    end.
Proof.
  intros H. unfold LiveSession.onmessage_begin. rewrite H.
  unfold bind at 1. unfold get at 1.
  destruct (truthy_string (inlineData message)) as [a|]; [|reflexivity].
  destruct (outputAudioContextRef r) as [ctx|]; [|reflexivity].
  unfold bind, modify, try_catch, ret, throw, emit.
  destruct (base64ToUint8Array a); reflexivity.
Qed.

Lemma resume_run (k : continuation) (source : handle) (r : refs) :
  onmessage_resume k source r
  = match decodeAudioData (k_data k) with
    | Some audioBuffer =>
        (Normal tt,
         set_sourcesRef (set_add source (sourcesRef r))
           (set_nextStartTimeRef (nextStartTimeRef r + duration audioBuffer) r),
         [SourceStart source audioBuffer (nextStartTimeRef r)])
    | None => (Normal tt, r, [ConsoleError "Audio decode error"])
    end.
Proof.
  unfold LiveSession.onmessage_resume, try_catch.
  destruct (decodeAudioData (k_data k)); reflexivity.
Qed.

(** One chunk that decodes, handled in one piece. *)
Lemma enqueue_run (message : LiveServerMessage) (b : AudioBuffer) (now : Z)
      (source ctx : handle) (r : refs) :
  decodes_to message b ->
  outputAudioContextRef r = Some ctx ->
  onmessage message now source r
  = (Normal tt,
     set_sourcesRef (set_add source (sourcesRef r))
       (set_nextStartTimeRef (Z.max (nextStartTimeRef r) now + duration b) r),
     [SourceStart source b (Z.max (nextStartTimeRef r) now)]).
Proof.
  intros (Hi & a & data & Ha & Hd & Hb) Hctx.
  unfold LiveSession.onmessage. unfold bind at 1.
  rewrite chunk_begin_run by exact Hi. rewrite Ha, Hctx. cbn zeta. rewrite Hd.
  cbn [when_some]. rewrite resume_run. cbn [k_data]. rewrite Hb. reflexivity.
Qed.

(** One chunk that does not decode, handled in one piece. *)
Lemma skip_run (message : LiveServerMessage) (now : Z) (source ctx : handle) (r : refs) :
  decode_fails message ->
  outputAudioContextRef r = Some ctx ->
  onmessage message now source r
  = (Normal tt, set_nextStartTimeRef (Z.max (nextStartTimeRef r) now) r,
     [ConsoleError "Audio decode error"]).
Proof.
  intros (Hi & a & Ha & Hd) Hctx.
  unfold LiveSession.onmessage. unfold bind at 1.
  rewrite chunk_begin_run by exact Hi. rewrite Ha, Hctx. cbn zeta.
  destruct (base64ToUint8Array a) as [data|].
  - cbn [when_some]. rewrite resume_run. cbn [k_data]. rewrite Hd. reflexivity.
  - reflexivity.
Qed.

(** *** Teardown *)

Lemma track_stop_loop (stream : MediaStream) (r : refs) :
  forEach stream (fun track => emit (TrackStop track)) r
  = (Normal tt, r, map TrackStop stream).
Proof.
  induction stream as [|t stream IH]; [reflexivity|].
  cbn [forEach]. unfold bind at 1. unfold emit at 1. rewrite IH. reflexivity.
Qed.

Lemma cleanupAudio_run (r : refs) :
  cleanupAudio r = (Normal tt, released r, release_calls r ++ cancel_calls r).
Proof.
  destruct r as [inp outp nxt srcs strm sess proc snode req].
  unfold LiveSession.cleanupAudio, release_calls, cancel_calls, released.
  destruct proc, snode, strm, inp, outp, sess, req as [[|id]|];
    repeat (unfold bind at 1; cbn -[stop_all_sources forEach bind];
            rewrite ?track_stop_loop, ?stop_all_sources_run);
    cbn -[stop_all_sources forEach bind];
    rewrite ?app_nil_r;
    repeat (cbn [app];
            match goal with
            | |- context [(?a ++ ?b) ++ ?c] => rewrite <- (List.app_assoc a b c)
            end);
    cbn [app]; reflexivity.
Qed.

Lemma released_again (r : refs) : released (released r) = released r.
Proof. reflexivity. Qed.

Lemma release_calls_released (r : refs) : release_calls (released r) = [].
Proof. reflexivity. Qed.

Lemma cancel_calls_released (r : refs) : cancel_calls (released r) = cancel_calls r.
Proof. reflexivity. Qed.

Lemma filter_release_calls (r : refs) :
  filter is_release (release_calls r) = release_calls r.
Proof.
  unfold release_calls.
  destruct (processorRef r), (sourceNodeRef r), (streamRef r) as [stream|],
    (inputAudioContextRef r), (outputAudioContextRef r), (sessionRef r);
    cbn [option_list map flat_map app filter is_release];
    rewrite ?app_nil_r, ?filter_app; cbn [filter is_release];
    repeat f_equal;
    try (induction stream as [|t stream IH]; [reflexivity|cbn; rewrite IH; reflexivity]);
    try (induction (sourcesRef r) as [|x l IH]; [reflexivity|cbn; rewrite IH; reflexivity]).
Qed.

Lemma filter_cancel_calls (r : refs) : filter is_release (cancel_calls r) = [].
Proof. unfold cancel_calls. destruct (requestRef r) as [[|id]|]; reflexivity. Qed.

Lemma cleanup_times_outcome (n : nat) :
  forall r : refs, outcome_of (cleanup_times stop_throws n r) = Normal tt.
Proof.
  induction n as [|n IH]; intros r; [reflexivity|].
  cbn [cleanup_times]. rewrite (bind_run _ _ _ _ _ _ (cleanupAudio_run r)).
  exact (IH (released r)).
Qed.

Lemma cleanup_times_releases (n : nat) :
  forall r : refs,
    filter is_release (effects_of (cleanup_times stop_throws (S n) r)) = release_calls r.
Proof.
  induction n as [|n IH]; intros r.
  - cbn [cleanup_times].
    rewrite (bind_run _ _ _ _ _ _ (cleanupAudio_run r)). cbn [effects_of ret snd].
    rewrite app_nil_r, filter_app, filter_release_calls, filter_cancel_calls.
    apply app_nil_r.
  - change (cleanup_times stop_throws (S (S n)))
      with (cleanupAudio ;; cleanup_times stop_throws (S n)).
    rewrite (bind_run _ _ _ _ _ _ (cleanupAudio_run r)).
    unfold effects_of at 1. cbn [snd].
    rewrite !filter_app, (IH (released r)).
    rewrite filter_release_calls, filter_cancel_calls, release_calls_released.
    rewrite !app_nil_r. reflexivity.
Qed.

(** C7.  [cleanupAudio] called again finds every ref null: the first call
    makes exactly the release calls owed, one for each resource held, and
    every later call makes none and leaves the refs as they are. *)
Theorem C7_cleanup_idempotent (r : refs) (n : nat) :
  let first := cleanupAudio r in
  let again := cleanupAudio (state_of first) in
  outcome_of first = Normal tt /\
  filter is_release (effects_of first) = release_calls r /\
  outcome_of again = Normal tt /\
  filter is_release (effects_of again) = [] /\
  state_of again = state_of first /\
  effects_of again = cancel_calls r /\
  filter is_release (effects_of (cleanup_times stop_throws (S (S n)) r))
  = release_calls r.
Proof.
  intros first again.
  assert (Hf : first = (Normal tt, released r, release_calls r ++ cancel_calls r))
    by apply cleanupAudio_run.
  assert (Ha : again = (Normal tt, released r, cancel_calls r)).
  { unfold again. rewrite Hf. unfold state_of. cbn [fst snd].
    rewrite cleanupAudio_run. reflexivity. }
  rewrite Hf, Ha. unfold outcome_of, effects_of, state_of. cbn [fst snd].
  rewrite filter_app, filter_release_calls, !filter_cancel_calls, app_nil_r.
  repeat split. exact (cleanup_times_releases (S n) r).
Qed.

(** *** Gapless scheduling *)

Lemma handle_all_cons (message : LiveServerMessage) (now : Z) (source : handle)
      (inputs : list (LiveServerMessage * Z * handle)) (r : refs) :
  handle_all ((message, now, source) :: inputs) r
  = bind (onmessage message now source) (fun _ => handle_all inputs) r.
Proof. reflexivity. Qed.

Lemma handle_all_enqueues (inputs : list (LiveServerMessage * Z * handle))
      (buffers : list AudioBuffer) :
  Forall2 (fun i b => decodes_to (fst (fst i)) b) inputs buffers ->
  forall (r : refs) (ctx : handle),
    outputAudioContextRef r = Some ctx ->
    outcome_of (handle_all inputs r) = Normal tt /\
    starts (effects_of (handle_all inputs r))
    = gapless_schedule (nextStartTimeRef r) (combine (arrival_times inputs) buffers).
Proof.
  induction 1 as [|[[m now] src] b inputs buffers Hd _ IH]; intros r ctx Hctx.
  - split; reflexivity.
  - cbn [fst] in Hd.
    rewrite handle_all_cons.
    rewrite (bind_run _ _ _ _ _ _ (enqueue_run m b now src ctx r Hd Hctx)).
    match goal with |- context [handle_all inputs ?r1] =>
      destruct (IH r1 ctx Hctx) as [Ho Hs];
      destruct (handle_all inputs r1) as [[res r2] out] end.
    unfold outcome_of, effects_of in *. cbn [fst snd] in *. split; [exact Ho|].
    cbn [app starts arrival_times map combine gapless_schedule fst snd].
    rewrite Hs. cbn [nextStartTimeRef set_sourcesRef set_nextStartTimeRef].
    rewrite (Z.max_comm now). reflexivity.
Qed.

Lemma gapless_adjacent (arrivals : list (Z * AudioBuffer)) :
  forall (free : Z) (i : nat) s1 b1 s2 b2 now2 b2',
    nth_error (gapless_schedule free arrivals) i = Some (s1, b1) ->
    nth_error (gapless_schedule free arrivals) (S i) = Some (s2, b2) ->
    nth_error arrivals (S i) = Some (now2, b2') ->
    s2 = Z.max now2 (s1 + duration b1).
Proof.
  induction arrivals as [|[now b] rest IH]; intros free i s1 b1 s2 b2 now2 b2' H1 H2 H3.
  - destruct i; discriminate.
  - destruct i as [|i].
    + cbn in H1. injection H1 as <- <-.
      destruct rest as [|[n2 c2] rest']; [discriminate|].
      cbn in H2, H3. injection H3 as -> ->. injection H2 as <- _. reflexivity.
    + cbn [gapless_schedule nth_error] in H1, H2. cbn [nth_error] in H3.
      exact (IH _ _ _ _ _ _ _ _ H1 H2 H3).
Qed.

Lemma gapless_in_time (arrivals : list (Z * AudioBuffer)) :
  forall free : Z,
    in_time free arrivals ->
    gapless_schedule free arrivals = back_to_back free (map snd arrivals).
Proof.
  induction arrivals as [|[now b] rest IH]; intros free H; [reflexivity|].
  destruct H as [Hle Hrest]. cbn [gapless_schedule map back_to_back snd].
  rewrite (Z.max_r now free Hle), (IH _ Hrest). reflexivity.
Qed.

(** *** Interruption and decode failure *)

(** What one message does when nothing runs between its two halves. *)
Lemma onmessage_run (message : LiveServerMessage) (now : Z) (source : handle) (r : refs) :
  onmessage message now source r
  = if interrupted message then
      (Normal tt, set_nextStartTimeRef 0 (set_sourcesRef [] r),
       ConsoleLog "Interrupted" :: map SourceStop (sourcesRef r))
    else
      match truthy_string (inlineData message), outputAudioContextRef r with
      | Some base64Audio, Some ctx =>
          let anchor := Z.max (nextStartTimeRef r) now in
          match option_map decodeAudioData (base64ToUint8Array base64Audio) with
          | Some (Some b) =>
              (Normal tt,
               set_sourcesRef (set_add source (sourcesRef r))
                 (set_nextStartTimeRef (anchor + duration b) r),
               [SourceStart source b anchor])
          | _ =>
              (Normal tt, set_nextStartTimeRef anchor r,
               [ConsoleError "Audio decode error"])
          end
      | _, _ => (Normal tt, r, [])
      end.
Proof.
  unfold LiveSession.onmessage. destruct (interrupted message) eqn:Hi.
  - rewrite (bind_run _ _ _ _ _ _ (interrupt_run message now r Hi)).
    cbn. rewrite app_nil_r. reflexivity.
  - unfold bind at 1. rewrite chunk_begin_run by exact Hi.
    destruct (truthy_string (inlineData message)) as [a|]; [|reflexivity].
    destruct (outputAudioContextRef r) as [ctx|]; [|reflexivity].
    cbn zeta. destruct (base64ToUint8Array a) as [data|]; [|reflexivity].
    cbn [when_some option_map]. rewrite resume_run. cbn [k_data].
    destruct (decodeAudioData data); reflexivity.
Qed.

(** Two states that differ in the anchor only, by values that a clock
    reading of [t0] or later levels out, cannot be told apart by a message
    handled at [t0] or later. *)
Lemma onmessage_anchor (message : LiveServerMessage) (now : Z) (source : handle)
      (r : refs) (a t0 : Z) :
  t0 <= now ->
  Z.max (nextStartTimeRef r) t0 = Z.max a t0 ->
  outcome_of (onmessage message now source (set_nextStartTimeRef a r))
  = outcome_of (onmessage message now source r) /\
  effects_of (onmessage message now source (set_nextStartTimeRef a r))
  = effects_of (onmessage message now source r) /\
  exists a',
    state_of (onmessage message now source (set_nextStartTimeRef a r))
    = set_nextStartTimeRef a' (state_of (onmessage message now source r)) /\
    Z.max (nextStartTimeRef (state_of (onmessage message now source r))) t0
    = Z.max a' t0.
Proof.
  intros Hnow Hmax. rewrite !onmessage_run.
  destruct (interrupted message).
  - repeat split. exists 0. split; reflexivity.
  - cbn [outputAudioContextRef set_nextStartTimeRef nextStartTimeRef sourcesRef].
    destruct (truthy_string (inlineData message)) as [b64|];
      [|repeat split; exists a; split; [reflexivity|exact Hmax]].
    destruct (outputAudioContextRef r) as [ctx|];
      [|repeat split; exists a; split; [reflexivity|exact Hmax]].
    assert (Heq : Z.max a now = Z.max (nextStartTimeRef r) now) by lia.
    cbn zeta. rewrite Heq.
    destruct (option_map decodeAudioData (base64ToUint8Array b64)) as [[b|]|].
    + repeat split. exists (Z.max (nextStartTimeRef r) now + duration b).
      split; reflexivity.
    + repeat split. exists (Z.max (nextStartTimeRef r) now). split; reflexivity.
    + repeat split. exists (Z.max (nextStartTimeRef r) now). split; reflexivity.
Qed.

Lemma onmessage_normal (message : LiveServerMessage) (now : Z) (source : handle) (r : refs) :
  outcome_of (onmessage message now source r) = Normal tt.
Proof.
  rewrite onmessage_run. destruct (interrupted message); [reflexivity|].
  destruct (truthy_string (inlineData message)); [|reflexivity].
  destruct (outputAudioContextRef r); [|reflexivity].
  cbn zeta. destruct (option_map _ _) as [[b|]|]; reflexivity.
Qed.

Lemma handle_all_step (message : LiveServerMessage) (now : Z) (source : handle)
      (inputs : list (LiveServerMessage * Z * handle)) (r : refs) :
  effects_of (handle_all ((message, now, source) :: inputs) r)
  = effects_of (onmessage message now source r)
    ++ effects_of (handle_all inputs (state_of (onmessage message now source r))).
Proof.
  rewrite handle_all_cons.
  pose proof (onmessage_normal message now source r) as Hn.
  destruct (onmessage message now source r) as [[res r1] out1] eqn:E.
  unfold outcome_of in Hn. cbn [fst] in Hn. subst res.
  rewrite (bind_run _ _ _ _ _ _ E). reflexivity.
Qed.

Lemma handle_all_anchor (inputs : list (LiveServerMessage * Z * handle)) :
  forall (r : refs) (a t0 : Z),
    Forall (fun i => t0 <= snd (fst i)) inputs ->
    Z.max (nextStartTimeRef r) t0 = Z.max a t0 ->
    effects_of (handle_all inputs (set_nextStartTimeRef a r))
    = effects_of (handle_all inputs r).
Proof.
  induction inputs as [|[[m now] src] inputs IH]; intros r a t0 Hall Hmax.
  - reflexivity.
  - inversion Hall as [|? ? Hnow Hrest]; subst. cbn [fst snd] in Hnow.
    rewrite !handle_all_step.
    destruct (onmessage_anchor m now src r a t0 Hnow Hmax) as (_ & He & a' & Hs & Hm).
    rewrite He, Hs. f_equal. exact (IH _ a' t0 Hrest Hm).
Qed.

(** C3, as the code has it.  An [Interrupted] message calls [stop()] on
    every buffer in the scheduled set, empties the set and sets the anchor
    to 0, not to the clock reading.  The clock is never negative and a
    chunk takes [max(anchor, now)] when it arrives, so a chunk that
    decodes and is handled in one piece right after the interruption
    starts at the clock reading of its own arrival, and for messages
    handled one after the other from then on the schedule is the one an
    anchor reset to the clock reading of the interruption would give. *)
Theorem C3_interrupt_reanchors (r : refs) (data : option string) (now : Z) :
  let message := {| interrupted := true; inlineData := data |} in
  let result := onmessage_begin message now r in
  outcome_of result = Normal None /\
  effects_of result = ConsoleLog "Interrupted" :: map SourceStop (sourcesRef r) /\
  sourcesRef (state_of result) = [] /\
  nextStartTimeRef (state_of result) = 0 /\
  (forall chunk b later source ctx,
      decodes_to chunk b ->
      outputAudioContextRef r = Some ctx ->
      0 <= later ->
      effects_of (onmessage chunk later source (state_of result))
      = [SourceStart source b later]) /\
  (forall inputs,
      0 <= now ->
      Forall (fun i => now <= snd (fst i)) inputs ->
      effects_of (handle_all inputs (state_of result))
      = effects_of (handle_all inputs (set_nextStartTimeRef now (state_of result)))).
Proof.
  intros message result. unfold result.
  rewrite (interrupt_run message now r eq_refl).
  unfold outcome_of, effects_of, state_of. cbn [fst snd].
  repeat split.
  - intros chunk b later source ctx Hd Hctx Hlater.
    rewrite (enqueue_run chunk b later source ctx
               (set_nextStartTimeRef 0 (set_sourcesRef [] r)) Hd Hctx).
    cbn [snd nextStartTimeRef set_nextStartTimeRef]. rewrite Z.max_r by exact Hlater.
    reflexivity.
  - intros inputs Hnow Hall. symmetry.
    apply (handle_all_anchor inputs _ now now Hall).
    cbn [nextStartTimeRef set_nextStartTimeRef]. lia.
Qed.


(** *** No two scheduled buffers overlap *)

Lemma segments_nonempty (tr : list effect) : segments tr <> [].
Proof.
  induction tr as [|e tr IH]; [discriminate|].
  cbn [segments]. destruct (is_interrupt_mark e); [discriminate|].
  destruct e; try exact IH. destruct (segments tr); discriminate.
Qed.

Lemma segments_start (s : handle) (b : AudioBuffer) (w : Z) (tr : list effect) :
  segments (SourceStart s b w :: tr)
  = ((w, b) :: hd [] (segments tr)) :: tl (segments tr).
Proof.
  cbn [segments is_interrupt_mark].
  pose proof (segments_nonempty tr). destruct (segments tr); [contradiction|reflexivity].
Qed.

Lemma segments_stops (l : list handle) (tr : list effect) :
  segments (map SourceStop l ++ tr) = segments tr.
Proof. induction l as [|s l IH]; [reflexivity|exact IH]. Qed.

(** The three shapes of what one event of the pump emits. *)
Lemma step_shape (ev : event) (p : pump) :
  (exists l, snd (step ev p) = ConsoleLog "Interrupted" :: map SourceStop l) \/
  ((snd (step ev p) = [] \/ snd (step ev p) = [ConsoleError "Audio decode error"]) /\
   nextStartTimeRef (pump_refs p) <= nextStartTimeRef (pump_refs (fst (step ev p)))) \/
  (exists s b,
      snd (step ev p) = [SourceStart s b (nextStartTimeRef (pump_refs p))] /\
      nextStartTimeRef (pump_refs (fst (step ev p)))
      = nextStartTimeRef (pump_refs p) + duration b).
Proof.
  destruct ev as [m now|t src|src]; cbn [LiveSession.step].
  - destruct (interrupted m) eqn:Hi.
    + left. rewrite (interrupt_run m now _ Hi). eexists. reflexivity.
    + right. left. rewrite chunk_begin_run by exact Hi.
      destruct (truthy_string (inlineData m)) as [a|];
        [|cbn; split; [left; reflexivity|lia]].
      destruct (outputAudioContextRef (pump_refs p)) as [ctx|];
        [|cbn; split; [left; reflexivity|lia]].
      cbn zeta. destruct (base64ToUint8Array a); cbn; split; auto; lia.
  - destruct (take_ticket t (pending p)) as [[k|] rest].
    + rewrite resume_run. destruct (decodeAudioData (k_data k)) as [b|].
      * right. right. exists src, b. cbn. split; reflexivity.
      * right. left. cbn. split; [right; reflexivity|lia].
    + right. left. cbn. split; [left; reflexivity|lia].
  - right. left. cbn. split; [left; reflexivity|lia].
Qed.

Lemma trace_cons (ev : event) (evs : list event) (p : pump) :
  trace (run_log (ev :: evs) p)
  = snd (step ev p) ++ trace (run_log evs (fst (step ev p))).
Proof.
  cbn [LiveSession.run_log]. destruct (step ev p) as [p' out]. reflexivity.
Qed.

Lemma duration_nonneg (b : AudioBuffer) : 0 <= duration b.
Proof. unfold duration. lia. Qed.

(** Within a segment every buffer starts at or after the anchor the pump
    had when the segment's events began, and no two overlap. *)
Lemma run_log_segments (evs : list event) :
  forall p : pump,
    Forall no_overlap (segments (trace (run_log evs p))) /\
    Forall (fun x => nextStartTimeRef (pump_refs p) <= fst x)
           (hd [] (segments (trace (run_log evs p)))).
Proof.
  induction evs as [|ev evs IH]; intros p.
  - cbn. split; repeat constructor.
  - rewrite trace_cons. destruct (IH (fst (step ev p))) as [Hall Hhd].
    set (tr := trace (run_log evs (fst (step ev p)))) in *.
    destruct (step_shape ev p) as [[l E]|[[[E|E] Hle]|(s & b & E & Hnext)]]; rewrite E.
    + cbn [app segments is_interrupt_mark String.eqb Ascii.eqb Bool.eqb].
      rewrite segments_stops. split; [constructor; [constructor|exact Hall]|constructor].
    + cbn [app]. split; [exact Hall|].
      eapply Forall_impl; [|exact Hhd]. intros x Hx. cbn beta in Hx |- *. lia.
    + cbn [app segments is_interrupt_mark]. split; [exact Hall|].
      eapply Forall_impl; [|exact Hhd]. intros x Hx. cbn beta in Hx |- *. lia.
    + cbn [app]. rewrite segments_start.
      pose proof (segments_nonempty tr) as Hne.
      destruct (segments tr) as [|seg segs]; [contradiction|].
      cbn [hd tl] in *. inversion Hall as [|? ? Hseg Hsegs]; subst.
      pose proof (duration_nonneg b) as Hd.
      split.
      * constructor; [|exact Hsegs]. constructor; [|exact Hseg].
        eapply Forall_impl; [|exact Hhd]. intros x Hx. cbn beta in Hx.
        unfold follows. cbn [fst snd]. lia.
      * constructor; [cbn; lia|].
        eapply Forall_impl; [|exact Hhd]. intros x Hx. cbn beta in Hx |- *. lia.
Qed.

Lemma ordered_pairs_nth {A} (R : A -> A -> Prop) (l : list A) :
  ForallOrdPairs R l ->
  forall i j x y, (i < j)%nat ->
    nth_error l i = Some x -> nth_error l j = Some y -> R x y.
Proof.
  induction 1 as [|a l Ha _ IH]; intros i j x y Hij Hi Hj.
  - destruct i; discriminate.
  - destruct j as [|j]; [lia|]. cbn in Hj. destruct i as [|i].
    + cbn in Hi. injection Hi as <-.
      rewrite Forall_forall in Ha. apply Ha. eapply nth_error_In. exact Hj.
    + cbn in Hi. apply (IH i j); [lia|assumption|assumption].
Qed.

(** A message handled in one piece never schedules a start before the
    clock reading it was handled at: the scheduled range of a buffer is
    then the range in which it sounds. *)
Lemma start_not_before_arrival (message : LiveServerMessage) (now : Z)
      (source : handle) (r : refs) (s : handle) (b : AudioBuffer) (w : Z) :
  In (SourceStart s b w) (effects_of (onmessage message now source r)) -> now <= w.
Proof.
  rewrite onmessage_run. destruct (interrupted message).
  - cbn. intros [H|H]; [discriminate|].
    apply in_map_iff in H. destruct H as (x & H & _). discriminate.
  - destruct (truthy_string (inlineData message)); [|intros []].
    destruct (outputAudioContextRef r); [|intros []].
    cbn zeta. destruct (option_map _ _) as [[b'|]|]; cbn.
    + intros [H|[]]. injection H as _ _ <-. lia.
    + intros [H|[]]. discriminate.
    + intros [H|[]]. discriminate.
Qed.

(** C2.  Whatever messages arrive, whenever their decodes settle and
    whenever buffers end: among the buffers started between the same two
    interruptions, a later one starts no sooner than an earlier one ends,
    so no instant lies in the scheduled time range of two of them. *)
Theorem C2_no_overlap (p : pump) (evs : list event) :
  let scheduled := segments (trace (run_log evs p)) in
  Forall no_overlap scheduled /\
  (forall seg i j x y,
      In seg scheduled ->
      (i < j)%nat ->
      nth_error seg i = Some x ->
      nth_error seg j = Some y ->
      fst x + duration (snd x) <= fst y) /\
  (forall seg i j x y t,
      In seg scheduled ->
      nth_error seg i = Some x ->
      nth_error seg j = Some y ->
      playing t x -> playing t y ->
      i = j).
Proof.
  intros scheduled. destruct (run_log_segments evs p) as [Hall _].
  fold scheduled in Hall. rewrite Forall_forall in Hall.
  assert (Hpair : forall seg i j x y, In seg scheduled -> (i < j)%nat ->
            nth_error seg i = Some x -> nth_error seg j = Some y -> follows x y).
  { intros seg i j x y Hin Hij Hi Hj.
    exact (ordered_pairs_nth follows seg (Hall seg Hin) i j x y Hij Hi Hj). }
  split; [rewrite Forall_forall; exact Hall|]. split; [exact Hpair|].
  intros seg i j x y t Hin Hi Hj Hx Hy. unfold playing in *.
  destruct (Nat.lt_trichotomy i j) as [Hlt|[Heq|Hgt]]; [|exact Heq|].
  - pose proof (Hpair seg i j x y Hin Hlt Hi Hj) as H. unfold follows in H. lia.
  - pose proof (Hpair seg j i y x Hin Hgt Hj Hi) as H. unfold follows in H. lia.
Qed.

(** *** Messages handled one at a time are a run of the pump *)

Lemma one_message_pump (message : LiveServerMessage) (now : Z) (source : handle)
      (p : pump) :
  pending p = [] ->
  let p1 := fst (step (Message message now) p) in
  let p2 := fst (step (DecodeSettled (arrivals p) source) p1) in
  pending p2 = [] /\
  arrivals p2 = S (arrivals p) /\
  pump_refs p2 = state_of (onmessage message now source (pump_refs p)) /\
  snd (step (Message message now) p) ++ snd (step (DecodeSettled (arrivals p) source) p1)
  = effects_of (onmessage message now source (pump_refs p)).
Proof.
  intros Hp. cbn zeta. unfold LiveSession.onmessage.
  cbn [LiveSession.step]. unfold bind at 1 2.
  destruct (interrupted message) eqn:Hi.
  - rewrite (interrupt_run message now _ Hi). cbn. rewrite Hp, !app_nil_r.
    repeat split.
  - rewrite chunk_begin_run by exact Hi.
    destruct (truthy_string (inlineData message)) as [a|];
      [|cbn; rewrite Hp; repeat split].
    destruct (outputAudioContextRef (pump_refs p)) as [ctx|];
      [|cbn; rewrite Hp; repeat split].
    cbn zeta. destruct (base64ToUint8Array a) as [data|];
      [|cbn; rewrite Hp; repeat split].
    cbn [fst snd pending arrivals pump_refs when_some].
    rewrite Hp. cbn [app take_ticket]. rewrite Nat.eqb_refl.
    destruct (onmessage_resume _ source _) as [[res r2] out2].
    cbn. repeat split.
Qed.

Lemma handle_all_is_a_pump_run (inputs : list (LiveServerMessage * Z * handle)) :
  forall p : pump,
    pending p = [] ->
    trace (run_log (one_at_a_time (arrivals p) inputs) p)
    = effects_of (handle_all inputs (pump_refs p)).
Proof.
  induction inputs as [|[[m now] src] inputs IH]; intros p Hp; [reflexivity|].
  cbn [one_at_a_time]. rewrite !trace_cons, handle_all_step.
  destruct (one_message_pump m now src p Hp) as (Hp2 & Ha & Hr & He).
  rewrite List.app_assoc, He, <- Hr, <- Ha. f_equal. apply IH, Hp2.
Qed.

(** *** Gapless scheduling *)


(** *** An interruption and the decodes in flight *)

Lemma stops_map (l : list handle) : stops (map SourceStop l) = l.
Proof. induction l as [|s l IH]; [reflexivity|]. cbn. rewrite IH. reflexivity. Qed.

(** C4, as the code has it.  An interruption calls [stop()] on every
    buffer in the scheduled set and empties the set; the invocations that
    wait for a decode are left as they are, and one of them whose decode
    then succeeds starts its buffer at the reset anchor and registers
    it. *)
Theorem C4_interrupt_spares_pending_decodes (p : pump) (data : option string) (now : Z) :
  let message := {| interrupted := true; inlineData := data |} in
  let after := fst (step (Message message now) p) in
  stops (snd (step (Message message now) p)) = sourcesRef (pump_refs p) /\
  sourcesRef (pump_refs after) = [] /\
  pending after = pending p /\
  (forall ticket k rest b source,
      take_ticket ticket (pending p) = (Some k, rest) ->
      decodeAudioData (k_data k) = Some b ->
      snd (step (DecodeSettled ticket source) after) = [SourceStart source b 0] /\
      sourcesRef (pump_refs (fst (step (DecodeSettled ticket source) after)))
      = [source]).
Proof.
  intros message after. unfold after. cbn [LiveSession.step].
  rewrite (interrupt_run message now (pump_refs p) eq_refl).
  cbn [fst snd pump_refs pending stops]. rewrite stops_map.
  split; [reflexivity|]. split; [reflexivity|]. split; [reflexivity|].
  intros ticket k rest b source Hticket Hdecode.
  cbn [LiveSession.step pending]. rewrite Hticket, resume_run, Hdecode.
  split; reflexivity.
Qed.

End PlaybackFacts.

(** *** Failing [stop()] calls *)

Lemma stops_app (a b : list effect) : stops (a ++ b) = stops a ++ stops b.
Proof.
  induction a as [|e a IH]; [reflexivity|].
  destruct e; cbn [app stops]; rewrite IH; reflexivity.
Qed.

Lemma stops_tracks (stream : MediaStream) : stops (map TrackStop stream) = [].
Proof. induction stream as [|t stream IH]; [reflexivity|exact IH]. Qed.

Lemma stops_teardown (r : refs) (ctx : handle) :
  outputAudioContextRef r = Some ctx ->
  stops (release_calls r ++ cancel_calls r) = sourcesRef r.
Proof.
  intros H. unfold release_calls, cancel_calls. rewrite H.
  destruct (processorRef r), (sourceNodeRef r), (streamRef r) as [stream|],
    (inputAudioContextRef r), (sessionRef r), (requestRef r) as [[|id]|];
    cbn [option_list map flat_map app];
    repeat (progress (rewrite ?stops_app, ?stops_tracks, ?stops_map; cbn [stops app]));
    rewrite ?app_nil_r; reflexivity.
Qed.

(** C10.  Whichever [stop()] calls throw, the interruption and the
    teardown run as if none did: [stop()] is called on every buffer of the
    set, the set is emptied, and what follows the loop is carried out (the
    anchor reset; the closing of the output context, the session close
    and the clearing of the refs). *)
Theorem C10_stop_failures_contained
        {bytes : Type} (base64ToUint8Array : string -> option bytes)
        (stop_throws : handle -> bool)
        (r : refs) (data : option string) (now : Z) (ctx : handle) :
  let message := {| interrupted := true; inlineData := data |} in
  let held := set_outputAudioContextRef (Some ctx) r in
  let interrupt := onmessage_begin base64ToUint8Array stop_throws message now r in
  let teardown := cleanupAudio stop_throws held in
  interrupt = onmessage_begin base64ToUint8Array (fun _ => false) message now r /\
  teardown = cleanupAudio (fun _ => false) held /\
  outcome_of interrupt = Normal None /\
  stops (effects_of interrupt) = sourcesRef r /\
  sourcesRef (state_of interrupt) = [] /\
  nextStartTimeRef (state_of interrupt) = 0 /\
  outcome_of teardown = Normal tt /\
  stops (effects_of teardown) = sourcesRef r /\
  state_of teardown = released held /\
  (exists before,
      effects_of teardown
      = before ++ map SourceStop (sourcesRef r)
          ++ ContextClose ctx :: map SessionClose (option_list (sessionRef r))
          ++ cancel_calls r).
Proof.
  intros message held interrupt teardown. unfold interrupt, teardown.
  rewrite !(interrupt_run base64ToUint8Array _ message now r eq_refl).
  rewrite !cleanupAudio_run.
  unfold outcome_of, effects_of, state_of. cbn [fst snd stops].
  rewrite stops_map, (stops_teardown held ctx eq_refl).
  repeat split.
  exists (map ProcessorDisconnect (option_list (processorRef r))
          ++ map SourceNodeDisconnect (option_list (sourceNodeRef r))
          ++ flat_map (map TrackStop) (option_list (streamRef r))
          ++ map ContextClose (option_list (inputAudioContextRef r))).
  unfold release_calls, held.
  cbn [outputAudioContextRef set_outputAudioContextRef option_list flat_map
       processorRef sourceNodeRef streamRef inputAudioContextRef sessionRef sourcesRef].
  rewrite app_nil_r. rewrite <- !List.app_assoc. cbn [app]. reflexivity.
Qed.

(** ** Capture and mute *)

Section CaptureFacts.

Context {Float32Array Blob : Type}.
Variable createPcmBlob : Float32Array -> Blob.

Local Abbreviation capture_step := (capture_step createPcmBlob).
Local Abbreviation capture_run := (capture_run createPcmBlob).

Lemma capture_run_cons (ev : capture_event) (evs : list capture_event) (p : page) :
  capture_run (ev :: evs) p
  = (fst (capture_run evs (fst (capture_step ev p))),
     snd (capture_step ev p) ++ snd (capture_run evs (fst (capture_step ev p)))).
Proof.
  cbn [LiveSession.capture_run]. destruct (capture_step ev p) as [p1 out1].
  cbn [fst snd]. destruct (capture_run evs p1) as [p2 out2]. reflexivity.
Qed.

(** What one event does to the promise, the queue and what is sent: a
    frame delivered to the handler of the mount is appended to the queue
    unless the promise is rejected, a job that runs moves the head of the
    queue to the packets sent, a rejection drops the reactions, and
    nothing else touches either. *)
Lemma capture_step_shape (ev : capture_event) (p : page) :
  mount_handler p ->
  let p1 := fst (capture_step ev p) in
  let out := snd (capture_step ev p) in
  let delivered :=
    match ev with
    | AudioProcess inputData => if installed p then [createPcmBlob inputData] else []
    | _ => []
    end in
  mount_handler p1 /\
  (sessionPromise p = Rejected ->
   sessionPromise p1 = Rejected /\ out ++ microtasks p1 = microtasks p) /\
  (sessionPromise p1 <> Rejected -> out ++ queued p1 = queued p ++ delivered) /\
  (sessionPromise p <> Rejected -> sessionPromise p1 = Rejected ->
   out = [] /\ microtasks p1 = microtasks p).
Proof.
  intros Hm. unfold mount_handler, queued, installed in *.
  destruct ev as [source processor| |frame|ok|]; cbn [LiveSession.capture_step fst snd].
  - unfold onopen.
    destruct (inputAudioContextRef (page_refs p)), (streamRef (page_refs p));
      cbn [onaudioprocess_scope sessionPromise microtasks app];
      rewrite ?app_nil_r; repeat split; auto; try contradiction.
  - cbn [toggleMute onaudioprocess_scope sessionPromise microtasks app].
    rewrite ?app_nil_r. repeat split; auto; try contradiction.
  - destruct Hm as [E|E]; rewrite E; cbn [fst snd app].
    + rewrite E, !app_nil_r. repeat split; auto; try contradiction.
    + unfold onaudioprocess, promise_then. cbn [mount_scope scope_isMuted].
      destruct (sessionPromise p) as [reactions| |] eqn:Ep;
        cbn [onaudioprocess_scope sessionPromise microtasks app];
        rewrite ?Ep, ?app_nil_r, <- ?List.app_assoc;
        repeat split; auto; try discriminate; try contradiction.
  - destruct (sessionPromise p) as [reactions| |] eqn:Ep; [destruct ok| |];
      cbn [fst snd app onaudioprocess_scope sessionPromise microtasks];
      rewrite ?Ep, ?app_nil_r; repeat split; auto; try discriminate; try contradiction.
  - destruct (microtasks p) as [|media rest] eqn:Eq; cbn [fst snd app];
      cbn [onaudioprocess_scope sessionPromise microtasks];
      rewrite ?Eq, ?app_nil_r; repeat split; auto; try discriminate; try contradiction.
Qed.

(** Clicks on the mute button never reach the handler: its scope stays the
    one of the mount, where [isMuted] is [false]. *)
Lemma mount_handler_run (evs : list capture_event) :
  forall p, mount_handler p -> mount_handler (fst (capture_run evs p)).
Proof.
  induction evs as [|ev evs IH]; intros p H; [exact H|].
  rewrite capture_run_cons. cbn [fst].
  apply IH. exact (proj1 (capture_step_shape ev p H)).
Qed.

Lemma rejected_run (evs : list capture_event) :
  forall p,
    mount_handler p ->
    sessionPromise p = Rejected ->
    sessionPromise (fst (capture_run evs p)) = Rejected /\
    snd (capture_run evs p) ++ microtasks (fst (capture_run evs p)) = microtasks p.
Proof.
  induction evs as [|ev evs IH]; intros p Hm H.
  - split; [exact H|reflexivity].
  - rewrite capture_run_cons. cbn [fst snd].
    destruct (capture_step_shape ev p Hm) as (Hm1 & Hrej & _ & _).
    destruct (Hrej H) as [H1 Hq]. destruct (IH _ Hm1 H1) as [Hr Hs].
    split; [exact Hr|]. rewrite <- List.app_assoc, Hs. exact Hq.
Qed.

(** What has been sent, followed by what is queued, is what was captured,
    in the order of capture. *)
Lemma capture_conserved (evs : list capture_event) :
  forall p,
    mount_handler p ->
    sessionPromise (fst (capture_run evs p)) <> Rejected ->
    snd (capture_run evs p) ++ queued (fst (capture_run evs p))
    = queued p ++ map createPcmBlob (captured createPcmBlob evs p).
Proof.
  induction evs as [|ev evs IH]; intros p Hm Hfinal.
  - cbn. rewrite app_nil_r. reflexivity.
  - rewrite capture_run_cons in Hfinal |- *. cbn [fst snd] in Hfinal |- *.
    destruct (capture_step_shape ev p Hm) as (Hm1 & Hrej & Hq & _).
    assert (H1 : sessionPromise (fst (capture_step ev p)) <> Rejected).
    { intros H1. destruct (rejected_run evs _ Hm1 H1) as [Hr _]. contradiction. }
    rewrite <- List.app_assoc, (IH _ Hm1 Hfinal), List.app_assoc, (Hq H1).
    cbn [captured]. rewrite map_app, <- List.app_assoc. f_equal. f_equal.
    destruct ev; try reflexivity. destruct (installed p); reflexivity.
Qed.

(** What has been sent is a prefix of what was captured, whatever became
    of the promise. *)
Lemma capture_prefix (evs : list capture_event) :
  forall p,
    mount_handler p ->
    exists rest,
      snd (capture_run evs p) ++ rest
      = queued p ++ map createPcmBlob (captured createPcmBlob evs p).
Proof.
  induction evs as [|ev evs IH]; intros p Hm.
  - exists (queued p). cbn. rewrite app_nil_r. reflexivity.
  - rewrite capture_run_cons. cbn [fst snd].
    destruct (capture_step_shape ev p Hm) as (Hm1 & Hrej & Hq & Hnew).
    set (p1 := fst (capture_step ev p)) in *.
    set (delivered := map createPcmBlob (captured createPcmBlob (ev :: evs) p)).
    destruct (sessionPromise p1) as [reactions| |] eqn:E1.
    3: { destruct (rejected_run evs p1 Hm1 E1) as [_ Hs].
         destruct (sessionPromise p) as [reactions| |] eqn:Ep.
         - destruct Hnew as [Ho Hmt]; [discriminate|reflexivity|].
           exists (microtasks (fst (capture_run evs p1)) ++ reactions ++ delivered).
           rewrite Ho. cbn [app]. rewrite List.app_assoc, Hs, Hmt.
           unfold queued. rewrite Ep, <- List.app_assoc. reflexivity.
         - destruct Hnew as [Ho Hmt]; [discriminate|reflexivity|].
           exists (microtasks (fst (capture_run evs p1)) ++ delivered).
           rewrite Ho. cbn [app]. rewrite List.app_assoc, Hs, Hmt.
           unfold queued. rewrite Ep, app_nil_r. reflexivity.
         - destruct (Hrej eq_refl) as [_ Hmt].
           exists (microtasks (fst (capture_run evs p1)) ++ delivered).
           rewrite <- List.app_assoc, (List.app_assoc _ _ delivered), Hs.
           rewrite List.app_assoc, Hmt.
           unfold queued. rewrite Ep, app_nil_r. reflexivity. }
    all: destruct (IH p1 Hm1) as [rest Hrest]; exists rest;
      rewrite <- List.app_assoc, Hrest, List.app_assoc, Hq by discriminate;
      unfold delivered; cbn [captured]; rewrite map_app, <- List.app_assoc;
      f_equal; f_equal; destruct ev; try reflexivity;
      destruct (installed p); reflexivity.
Qed.

Lemma prefix_nth {A} (l rest whole : list A) (k : nat) (x : A) :
  l ++ rest = whole -> nth_error l k = Some x -> nth_error whole k = Some x.
Proof.
  intros <- H. rewrite nth_error_app1; [exact H|].
  apply nth_error_Some. rewrite H. discriminate.
Qed.

(** C5, on the code.  After a click on the mute button the state [isMuted]
    is [true], and the next frame the processor delivers is still sent:
    the handler reads the [isMuted] of the mount.  The click leaves the
    refs, the microphone stream among them, as they were. *)
Theorem C5_frame_sent_while_muted
        (input output session source processor : handle) (stream : MediaStream)
        (frame : Float32Array) :
  let opened :=
    fst (capture_run [Open source processor; Settle true]
                     (initial_page (connected_refs input output stream session))) in
  let muted := fst (capture_step Click opened) in
  isMuted opened = false /\
  isMuted muted = true /\
  page_refs muted = page_refs opened /\
  streamRef (page_refs muted) = Some stream /\
  snd (capture_run [AudioProcess frame; Microtask] muted) = [createPcmBlob frame].
Proof. repeat split. Qed.


End CaptureFacts.

(** ** [analyzeDiaryEntry] *)

Section AnalysisFacts.

Import Gemini.

Variable generateContent : generate_request -> outcome generate_response.
Variable fetch : fetch_request -> outcome http_response.
Variable JSON_parse : jsval -> outcome jsval.
Variable match_data_url : string -> option (string * string).

Local Abbreviation analyze_attempt_000 :=
  (analyze_attempt_000 generateContent JSON_parse match_data_url).
Local Abbreviation analyzeDiaryEntry_000 :=
  (analyzeDiaryEntry_000 generateContent JSON_parse match_data_url).
Local Abbreviation analyze_attempt :=
  (analyze_attempt generateContent fetch JSON_parse match_data_url).
Local Abbreviation analyzeDiaryEntry :=
  (analyzeDiaryEntry generateContent fetch JSON_parse match_data_url).

(** [try { body } catch { return d }] settles with the value of [body],
    or with [d] when [body] throws. *)
Lemma caught_default (body : Async jsval) (d : jsval) :
  run_async (try_catch body (fun _ => emit "Analysis failed" ;; ret d))
  = match run_async body with
    | Normal v => Normal v
    | Throw _ => Normal d
    end.
Proof.
  unfold run_async, try_catch. destruct (body tt) as [[[v|e] s] out]; reflexivity.
Qed.

Lemma run_bind {A B} (m : Async A) (k : A -> Async B) :
  run_async (bind m k)
  = match run_async m with
    | Normal a => run_async (k a)
    | Throw e => Throw e
    end.
Proof.
  unfold run_async, bind. destruct (m tt) as [[[a|e] []] out]; [|reflexivity].
  cbn [fst]. destruct (k a tt) as [[res s2] out2]. reflexivity.
Qed.

Lemma run_try_catch {A} (body : Async A) (handler : string -> Async A) :
  run_async (try_catch body handler)
  = match run_async body with
    | Normal a => Normal a
    | Throw e => run_async (handler e)
    end.
Proof.
  unfold run_async, try_catch. destruct (body tt) as [[[a|e] []] out]; [reflexivity|].
  cbn [fst]. destruct (handler e tt) as [[res s2] out2]. reflexivity.
Qed.

Lemma run_lift {A} (o : outcome A) : run_async (lift o) = o.
Proof. reflexivity. Qed.

(** A chat completion settles with the content of the first choice; a
    failed fetch, a status that is not ok, a body that is no JSON and a
    body without [choices[0].message] all reject. *)
Lemma chat_completion_run (request : fetch_request) (name : string) :
  run_async (chat_completion fetch request name)
  = match fetch request with
    | Throw e => Throw e
    | Normal response =>
        if ok response then
          match body_json response with
          | Throw e => Throw e
          | Normal data => first_choice_content data
          end
        else
          match body_text response with
          | Throw e => Throw e
          | Normal err => Throw (name ++ " API Error: " ++ err)%string
          end
    end.
Proof.
  unfold chat_completion. rewrite run_try_catch, run_bind, run_lift.
  destruct (fetch request) as [response|e]; [|reflexivity].
  destruct (ok response); cbn [negb]; rewrite run_bind, run_lift.
  - destruct (body_json response) as [data|e]; [|reflexivity].
    rewrite run_lift. destruct (first_choice_content data); reflexivity.
  - destruct (body_text response); reflexivity.
Qed.

Lemma parse_response_text_run (response : generate_response) (msg : string) :
  run_async (parse_response_text JSON_parse response msg)
  = match truthy (response_text response) with
    | Some text => JSON_parse (JString text)
    | None => Throw msg
    end.
Proof.
  unfold parse_response_text. destruct (truthy (response_text response)); reflexivity.
Qed.

Lemma parse_response_text_value (response : generate_response) (msg : string) (v : jsval) :
  run_async (parse_response_text JSON_parse response msg) = Normal v ->
  exists c, JSON_parse c = Normal v.
Proof.
  rewrite parse_response_text_run.
  destruct (truthy (response_text response)) as [text|]; [|discriminate].
  intros H. exists (JString text). exact H.
Qed.

(** The [try] block of part_000, step by step. *)
Lemma analyze_attempt_000_run (text : string) (attachments : list string) :
  run_async (analyze_attempt_000 text attachments)
  = match generateContent
            {| client_key := None;
               parts := attachment_parts match_data_url attachments
                        ++ [Text (analysis_prompt_000 text)] |} with
    | Throw e => Throw e
    | Normal response =>
        match truthy (response_text response) with
        | Some t => JSON_parse (JString t)
        | None => Throw "No response text"
        end
    end.
Proof.
  unfold Gemini.analyze_attempt_000. rewrite run_bind, run_lift.
  destruct (generateContent _) as [response|e]; [|reflexivity].
  apply parse_response_text_run.
Qed.

(** A value the [try] block of part_001 returns is one [JSON.parse]
    returned. *)
Lemma analyze_attempt_value (text : string) (attachments : list string)
      (config : option AIConfig) (rt : routing) (v : jsval) :
  run_async (analyze_attempt text attachments config rt) = Normal v ->
  exists c, JSON_parse c = Normal v.
Proof.
  unfold Gemini.analyze_attempt. cbv zeta.
  repeat match goal with
         | |- context [run_async (match ?x with _ => _ end)] => destruct x
         end;
    repeat (rewrite run_bind;
            match goal with
            | |- context [match run_async ?m with _ => _ end] =>
                destruct (run_async m) as [?|?]; [|discriminate]
            end);
    try (rewrite run_lift; intros H; eexists; exact H);
    try (apply parse_response_text_value).
Qed.

(** C9.  [analyzeDiaryEntry] never rejects: it resolves with what
    [JSON.parse] returned, or, when a step of its [try] block throws (the
    provider call, a missing response text, [JSON.parse]), with the fixed
    default analysis, whose [moodScore] is 5.  Both versions. *)
Theorem C9_analyzeDiaryEntry_total
        (text : string) (attachments : list string) (config : option AIConfig) :
  let attempt :=
    run_async (analyze_attempt text attachments config (route attachments config)) in
  let result := run_async (analyzeDiaryEntry text attachments config) in
  let attempt_000 := run_async (analyze_attempt_000 text attachments) in
  let result_000 := run_async (analyzeDiaryEntry_000 text attachments) in
  (exists v, result = Normal v /\
             (v = default_analysis \/ exists c, JSON_parse c = Normal v)) /\
  (forall e, attempt = Throw e -> result = Normal default_analysis) /\
  (forall v, attempt = Normal v -> result = Normal v) /\
  (exists v, result_000 = Normal v /\
             (v = default_analysis_000 \/ exists c, JSON_parse c = Normal v)) /\
  (forall e, attempt_000 = Throw e -> result_000 = Normal default_analysis_000) /\
  (forall v, attempt_000 = Normal v -> result_000 = Normal v) /\
  moodScore default_analysis = Normal (JNumber 5) /\
  moodScore default_analysis_000 = Normal (JNumber 5) /\
  match generateContent
          {| client_key := None;
             parts := attachment_parts match_data_url attachments
                      ++ [Text (analysis_prompt_000 text)] |} with
  | Throw _ => result_000 = Normal default_analysis_000
  | Normal response =>
      match truthy (response_text response) with
      | None => result_000 = Normal default_analysis_000
      | Some t =>
          match JSON_parse (JString t) with
          | Throw _ => result_000 = Normal default_analysis_000
          | Normal v => result_000 = Normal v
          end
      end
  end.
Proof.
  intros attempt result attempt_000 result_000.
  assert (Hr : result = match attempt with
                        | Normal v => Normal v
                        | Throw _ => Normal default_analysis
                        end) by apply caught_default.
  assert (Hr0 : result_000 = match attempt_000 with
                             | Normal v => Normal v
                             | Throw _ => Normal default_analysis_000
                             end) by apply caught_default.
  repeat split.
  - rewrite Hr. destruct attempt as [v|e] eqn:E.
    + exists v. split; [reflexivity|]. right.
      exact (analyze_attempt_value text attachments config _ v E).
    + exists default_analysis. split; [reflexivity|left; reflexivity].
  - intros e H. rewrite Hr, H. reflexivity.
  - intros v H. rewrite Hr, H. reflexivity.
  - rewrite Hr0. destruct attempt_000 as [v|e] eqn:E.
    + exists v. split; [reflexivity|]. right.
      unfold attempt_000 in E. rewrite analyze_attempt_000_run in E.
      destruct (generateContent _) as [response|]; [|discriminate].
      destruct (truthy (response_text response)) as [t|]; [|discriminate].
      exists (JString t). exact E.
    + exists default_analysis_000. split; [reflexivity|left; reflexivity].
  - intros e H. rewrite Hr0, H. reflexivity.
  - intros v H. rewrite Hr0, H. reflexivity.
  - rewrite Hr0. unfold attempt_000. rewrite analyze_attempt_000_run.
    destruct (generateContent _) as [response|]; [|reflexivity].
    destruct (truthy (response_text response)) as [t|]; [|reflexivity].
    destruct (JSON_parse (JString t)); reflexivity.
Qed.

End AnalysisFacts.

(** ** Concrete runs *)

Section ConcreteRuns.

Import Scenario.

Local Abbreviation run := (LiveSession.run base64ToUint8Array decodeAudioData stop_ok).
Local Abbreviation run_log := (LiveSession.run_log base64ToUint8Array decodeAudioData stop_ok).

(** C4 as stated fails: the chunk that arrived before the interruption is
    started after it. *)
Lemma C4_in_flight_chunk_is_started :
  exists pre message now post ticket source out,
    racing_schedule = pre ++ Message message now :: post /\
    interrupted message = true /\
    In ticket (map fst (pending (run pre (initial_pump open_refs)))) /\
    In (DecodeSettled ticket source, out)
       (run_log post (run (pre ++ [Message message now]) (initial_pump open_refs))) /\
    In (SourceStart 7%nat buffer20ms 0) out /\
    sourcesRef (pump_refs (run racing_schedule (initial_pump open_refs))) = [7%nat].
Proof.
  exists [Message chunk 100], interruption, 100, [DecodeSettled 0 7%nat], 0%nat, 7%nat,
    [SourceStart 7%nat buffer20ms 0].
  repeat split; try reflexivity; left; reflexivity.
Qed.

Local Abbreviation handle_all := (LiveSession.handle_all base64ToUint8Array decodeAudioData stop_ok).
Local Abbreviation onmessage := (LiveSession.onmessage base64ToUint8Array decodeAudioData stop_ok).
Local Abbreviation decodes_to := (LiveSession.decodes_to base64ToUint8Array decodeAudioData).

Lemma chunk_decodes : decodes_to chunk buffer20ms.
Proof. split; [reflexivity|]. exists "AAAA", "AAAA". repeat split. Qed.

Lemma bad_chunk_fails : decode_fails base64ToUint8Array decodeAudioData bad_chunk.
Proof. split; [reflexivity|]. exists "AAA". repeat split. Qed.



(** C3 as stated fails: the anchor is reset to 0, not to the clock
    reading 200 of the interruption.  The chunk that was decoding when
    the interruption was handled is started at 0, and the chunk that
    arrives at 300 starts at 480, where an anchor reset to 200 would give
    200 and 680. *)
Lemma C3_anchor_is_reset_to_zero :
  nextStartTimeRef
    (pump_refs (run interrupted_while_decoding (initial_pump open_refs))) = 0 /\
  0 <> 200 /\
  starts (trace (run_log after_the_interruption
                         (run interrupted_while_decoding (initial_pump open_refs))))
  = [(0, buffer20ms); (480, buffer20ms)] /\
  starts (trace (run_log after_the_interruption
                         (anchored_at 200
                            (run interrupted_while_decoding (initial_pump open_refs)))))
  = [(200, buffer20ms); (680, buffer20ms)].
Proof. repeat split; discriminate. Qed.


(** An interruption while two buffers are scheduled and every [stop()]
    throws: both calls are made and the set is emptied. *)
Lemma interruption_with_failing_stops :
  LiveSession.onmessage_begin base64ToUint8Array stop_fails interruption 100
    (set_sourcesRef [3%nat; 4%nat] open_refs)
  = (Normal None, open_refs,
     [ConsoleLog "Interrupted"; SourceStop 3%nat; SourceStop 4%nat]).
Proof. reflexivity. Qed.

Lemma strict_interruption_refuted :
  ~ strict_interruption base64ToUint8Array decodeAudioData stop_ok
      (initial_pump open_refs) racing_schedule.
Proof.
  intros H.
  apply (H [Message chunk 100] interruption 100 [DecodeSettled 0 7%nat] 0%nat 7%nat
           [SourceStart 7%nat buffer20ms 0] eq_refl eq_refl
           (or_introl eq_refl) (or_introl eq_refl) 7%nat buffer20ms 0).
  left. reflexivity.
Qed.

End ConcreteRuns.

(** ** The session from setup to teardown *)

Section LifecycleFacts.

Import LiveSession LiveSetup.

Context {bytes : Type}.
Variable base64ToUint8Array : string -> option bytes.
Variable decodeAudioData : bytes -> option AudioBuffer.
Variable stop_throws : handle -> bool.

Local Abbreviation step := (LiveSession.step base64ToUint8Array decodeAudioData stop_throws).
Local Abbreviation run := (LiveSession.run base64ToUint8Array decodeAudioData stop_throws).
Local Abbreviation run_log := (LiveSession.run_log base64ToUint8Array decodeAudioData stop_throws).
Local Abbreviation cleanupAudio := (LiveSession.cleanupAudio stop_throws).

(** The playback callbacks touch the anchor and the scheduled set and no
    other ref. *)
Lemma step_refs (ev : event) (p : pump) :
  without_schedule (pump_refs (fst (step ev p))) = without_schedule (pump_refs p).
Proof.
  destruct ev as [m now|t src|src]; cbn [LiveSession.step].
  - destruct (interrupted m) eqn:Hi.
    + rewrite (interrupt_run _ _ m now _ Hi). reflexivity.
    + rewrite chunk_begin_run by exact Hi.
      destruct (truthy_string (inlineData m)) as [a|]; [|reflexivity].
      destruct (outputAudioContextRef (pump_refs p)) as [ctx|]; [|reflexivity].
      cbn zeta. destruct (base64ToUint8Array a); reflexivity.
  - destruct (take_ticket t (pending p)) as [[k|] rest] eqn:E; [|reflexivity].
    rewrite resume_run. destruct (decodeAudioData (k_data k)) as [b|]; reflexivity.
  - reflexivity.
Qed.

Lemma run_refs (evs : list event) :
  forall p : pump, without_schedule (pump_refs (run evs p)) = without_schedule (pump_refs p).
Proof.
  induction evs as [|ev evs IH]; intros p; [reflexivity|].
  cbn [LiveSession.run]. rewrite IH. exact (step_refs ev p).
Qed.

(** The refs part of [onopen] is what [onopen] does to the refs of the
    page. *)
Lemma onopen_refs_page {Blob : Type} (sc : scope) (source processor : handle)
      (p : page (Blob := Blob)) :
  page_refs (onopen sc source processor p)
  = state_of (onopen_refs source processor (page_refs p)).
Proof.
  unfold onopen, onopen_refs, state_of, bind, get.
  destruct (inputAudioContextRef (page_refs p)), (streamRef (page_refs p)); reflexivity.
Qed.

Lemma field_of_handles (r1 r2 : refs) :
  without_schedule r1 = without_schedule r2 ->
  inputAudioContextRef r1 = inputAudioContextRef r2 /\
  outputAudioContextRef r1 = outputAudioContextRef r2 /\
  streamRef r1 = streamRef r2 /\
  sessionRef r1 = sessionRef r2 /\
  processorRef r1 = processorRef r2 /\
  sourceNodeRef r1 = sourceNodeRef r2 /\
  requestRef r1 = requestRef r2.
Proof.
  intros H.
  repeat split;
    [exact (f_equal inputAudioContextRef H) | exact (f_equal outputAudioContextRef H)
    | exact (f_equal streamRef H) | exact (f_equal sessionRef H)
    | exact (f_equal processorRef H) | exact (f_equal sourceNodeRef H)
    | exact (f_equal requestRef H)].
Qed.

(** Setup, any playback activity, teardown: [cleanupAudio] makes one
    release call for each resource [connectToLive] and [onopen] acquired,
    stops the buffers that are scheduled at that moment, and leaves every
    ref null. *)
Theorem teardown_releases_what_setup_acquired
        (input output session source processor : handle) (stream : MediaStream)
        (evs : list event) :
  let connected :=
    state_of ((connectToLive_begin input output ;;
               connectToLive_resume (Some stream) session) initial_refs) in
  let opened := state_of (onopen_refs source processor connected) in
  let final := pump_refs (run evs (initial_pump opened)) in
  connected = connected_refs input output stream session /\
  cleanupAudio final
  = (Normal tt,
     set_nextStartTimeRef (nextStartTimeRef final) initial_refs,
     ProcessorDisconnect processor :: SourceNodeDisconnect source
       :: map TrackStop stream
       ++ ContextClose input
       :: map SourceStop (sourcesRef final)
       ++ [ContextClose output; SessionClose session]).
Proof.
  intros connected opened final. split; [reflexivity|].
  rewrite cleanupAudio_run.
  pose proof (run_refs evs (initial_pump opened)) as H. fold final in H.
  apply field_of_handles in H. destruct H as (Hi & Ho & Hs & Hse & Hp & Hn & Hr).
  cbn in Hi, Ho, Hs, Hse, Hp, Hn, Hr.
  unfold released, release_calls, cancel_calls.
  rewrite Hi, Ho, Hs, Hse, Hp, Hn, Hr.
  cbn [option_list map flat_map app]. rewrite !app_nil_r, <- !List.app_assoc.
  reflexivity.
Qed.

(** *** What the pump keeps track of *)

Lemma set_add_incl (s : handle) (l : list handle) : incl (set_add s l) (s :: l).
Proof.
  unfold set_add. destruct (existsb (Nat.eqb s) l).
  - apply incl_tl, incl_refl.
  - intros x Hx. apply in_app_or in Hx. destruct Hx as [Hx|[<-|[]]].
    + right. exact Hx.
    + left. reflexivity.
Qed.

Lemma set_delete_incl (s : handle) (l : list handle) : incl (set_delete s l) l.
Proof. intros x Hx. unfold set_delete in Hx. apply filter_In in Hx. tauto. Qed.

Lemma set_delete_gone (s : handle) (l : list handle) : ~ In s (set_delete s l).
Proof.
  unfold set_delete. intros H. apply filter_In in H. destruct H as [_ H].
  rewrite Nat.eqb_refl in H. discriminate.
Qed.

Lemma take_ticket_length (t : nat) (l : list (nat * continuation (bytes := bytes))) :
  forall k rest,
    take_ticket t l = (Some k, rest) -> List.length l = S (List.length rest).
Proof.
  induction l as [|[t' k'] l IH]; intros k rest E; cbn in E; [discriminate|].
  destruct (Nat.eqb t t'); [injection E as _ <-; reflexivity|].
  destruct (take_ticket t l) as [found rest'].
  injection E as -> <-. cbn. rewrite (IH k rest' eq_refl). reflexivity.
Qed.

(** One event of the pump: what it emits, what becomes of the scheduled
    set and of the waiting invocations. *)
Lemma step_tracking (ev : event) (p : pump) :
  let p' := fst (step ev p) in
  let out := snd (step ev p) in
  let sources := sourcesRef (pump_refs p) in
  let sources' := sourcesRef (pump_refs p') in
  (out = ConsoleLog "Interrupted" :: map SourceStop sources /\
   sources' = [] /\ pending p' = pending p /\ is_audio_message ev = false) \/
  ((out = [] \/ out = [ConsoleError "Audio decode error"]) /\
   incl sources' sources /\
   (List.length (pending p') <= List.length (pending p)
    \/ is_audio_message ev = true
       /\ List.length (pending p') = S (List.length (pending p))
       /\ sources' = sources)%nat) \/
  (exists t s b w,
      ev = DecodeSettled t s /\
      out = [SourceStart s b w] /\ incl sources' (s :: sources) /\
      List.length (pending p) = S (List.length (pending p'))).
Proof.
  destruct ev as [m now|t src|src]; cbn [LiveSession.step is_audio_message].
  - destruct (interrupted m) eqn:Hi.
    + left. rewrite (interrupt_run _ _ m now _ Hi). cbn. repeat split.
    + right. left. rewrite chunk_begin_run by exact Hi.
      destruct (truthy_string (inlineData m)) as [a|];
        [|cbn; repeat split; auto using incl_refl].
      destruct (outputAudioContextRef (pump_refs p)) as [ctx|];
        [|cbn; repeat split; auto using incl_refl].
      cbn zeta. destruct (base64ToUint8Array a); cbn.
      * split; [left; reflexivity|]. split; [apply incl_refl|]. right.
        rewrite length_app. cbn. repeat split. lia.
      * repeat split; auto using incl_refl.
  - destruct (take_ticket t (pending p)) as [[k|] rest] eqn:E.
    + rewrite resume_run. pose proof (take_ticket_length _ _ _ _ E) as Hlen.
      destruct (decodeAudioData (k_data k)) as [b|]; cbn.
      * right. right. exists t, src, b, (nextStartTimeRef (pump_refs p)).
        repeat split; [apply set_add_incl|exact Hlen].
      * right. left. repeat split; auto using incl_refl. left. lia.
    + right. left. cbn. repeat split; auto using incl_refl.
  - right. left. cbn. repeat split; auto using set_delete_incl.
Qed.

Lemma stops_follow_starts_more (tr : list effect) :
  forall a b : list handle,
    incl a b -> stops_follow_starts a tr -> stops_follow_starts b tr.
Proof.
  induction tr as [|e tr IH]; intros a b Hab H; [exact I|].
  destruct e; cbn [stops_follow_starts] in *; try exact (IH a b Hab H).
  - apply (IH (source :: a)); [|exact H].
    intros x [<-|Hx]; [left; reflexivity|right; apply Hab, Hx].
  - destruct H as [Hin H]. split; [apply Hab, Hin|exact (IH a b Hab H)].
Qed.

Lemma stops_follow_starts_stops (l started : list handle) (tr : list effect) :
  incl l started ->
  stops_follow_starts started tr ->
  stops_follow_starts started (map SourceStop l ++ tr).
Proof.
  induction l as [|s l IH]; intros Hl H; [exact H|].
  cbn. split; [apply Hl; left; reflexivity|].
  apply IH; [|exact H]. intros x Hx. apply Hl. right. exact Hx.
Qed.

Lemma tracked_sources_were_started (evs : list event) :
  forall (p : pump) (started : list handle),
    incl (sourcesRef (pump_refs p)) started ->
    stops_follow_starts started (trace (run_log evs p)).
Proof.
  induction evs as [|ev evs IH]; intros p started Hs; [exact I|].
  rewrite trace_cons.
  destruct (step_tracking ev p) as [(E & Hs' & _)|[([E|E] & Hs' & _)|(t & s & b & w & _ & E & Hs' & _)]];
    rewrite E.
  - cbn [app stops_follow_starts].
    apply stops_follow_starts_stops; [exact Hs|].
    apply IH. rewrite Hs'. intros x [].
  - cbn [app]. apply IH. intros x Hx. apply Hs, Hs', Hx.
  - cbn [app stops_follow_starts]. apply IH. intros x Hx. apply Hs, Hs', Hx.
  - cbn [app stops_follow_starts]. apply IH. intros x Hx.
    destruct (Hs' x Hx) as [<-|Hx']; [left; reflexivity|right; apply Hs, Hx'].
Qed.

(** Whatever happens, [stop()] is only ever called on a source node on
    which [start()] was called before (or that was in the scheduled set
    from the outset). *)
Theorem stop_only_after_start (p : pump) (evs : list event) :
  stops_follow_starts (sourcesRef (pump_refs p)) (trace (run_log evs p)).
Proof. apply tracked_sources_were_started, incl_refl. Qed.

Lemma starts_app (a b : list effect) : starts (a ++ b) = starts a ++ starts b.
Proof.
  induction a as [|e a IH]; [reflexivity|].
  destruct e; cbn [app starts]; rewrite ?IH; reflexivity.
Qed.

Lemma starts_stops (l : list handle) : starts (map SourceStop l) = [].
Proof. induction l as [|s l IH]; [reflexivity|exact IH]. Qed.

(** No audio message is scheduled twice: the buffers started are no more
    than the invocations waiting at the outset plus the audio messages
    that arrived, however often a decode is reported as settled. *)
Theorem at_most_one_start_per_message (p : pump) (evs : list event) :
  (List.length (starts (trace (run_log evs p)))
   <= List.length (pending p) + List.length (filter is_audio_message evs))%nat.
Proof.
  revert p. induction evs as [|ev evs IH]; intros p; [cbn; lia|].
  rewrite trace_cons, starts_app, length_app. specialize (IH (fst (step ev p))).
  cbn [filter].
  destruct (step_tracking ev p)
    as [(E & _ & Hp & Ha)|[([E|E] & _ & Hp)|(t & s & b & w & Hev & E & _ & Hp)]];
    rewrite E.
  - rewrite Ha. cbn [starts]. rewrite starts_stops. cbn [List.length].
    rewrite Hp in IH. lia.
  - cbn [starts List.length]. destruct Hp as [Hp|(Ha & Hp & _)].
    + destruct (is_audio_message ev); cbn [List.length]; lia.
    + rewrite Ha. cbn [List.length]. lia.
  - cbn [starts List.length]. destruct Hp as [Hp|(Ha & Hp & _)].
    + destruct (is_audio_message ev); cbn [List.length]; lia.
    + rewrite Ha. cbn [List.length]. lia.
  - subst ev. cbn [is_audio_message starts List.length]. lia.
Qed.

Lemma untracked_source_not_stopped (s : handle) (evs : list event) :
  forall p : pump,
    ~ In s (sourcesRef (pump_refs p)) ->
    forallb (fun ev => negb (settles_with s ev)) evs = true ->
    ~ In s (stops (trace (run_log evs p))).
Proof.
  induction evs as [|ev evs IH]; intros p Hs Hev; [intros []|].
  cbn [forallb] in Hev. apply andb_prop in Hev. destruct Hev as [Hev Hevs].
  rewrite trace_cons, stops_app. intros Hin. apply in_app_or in Hin.
  destruct (step_tracking ev p)
    as [(E & Hs' & _)|[([E|E] & Hs' & _)|(t & s' & b & w & Hev' & E & Hs' & _)]];
    rewrite E in Hin.
  - cbn [stops] in Hin. rewrite stops_map in Hin. destruct Hin as [Hin|Hin]; [contradiction|].
    apply (IH _ ltac:(rewrite Hs'; intros []) Hevs Hin).
  - destruct Hin as [[]|Hin]. apply (IH (fst (step ev p))); auto.
  - destruct Hin as [[]|Hin]. apply (IH (fst (step ev p))); auto.
  - destruct Hin as [[]|Hin]. subst ev. cbn [settles_with] in Hev.
    apply (IH (fst (step (DecodeSettled t s') p))); auto.
    intros Hx. destruct (Hs' _ Hx) as [<-|Hx']; [|contradiction].
    rewrite Nat.eqb_refl in Hev. discriminate.
Qed.

(** A buffer that has ended is no longer tracked: no interruption that
    follows calls [stop()] on it, as long as its node is not started
    again. *)
Theorem ended_source_is_not_stopped (s : handle) (p : pump) (evs : list event) :
  forallb (fun ev => negb (settles_with s ev)) evs = true ->
  ~ In s (stops (trace (run_log (Ended s :: evs) p))).
Proof.
  intros Hev. rewrite trace_cons. cbn [LiveSession.step fst snd app].
  apply untracked_source_not_stopped; [|exact Hev].
  cbn. apply set_delete_gone.
Qed.

End LifecycleFacts.

(** ** A session that cannot capture *)

Section SetupFailureFacts.

Import LiveSession LiveSetup.

Context {Float32Array Blob : Type}.
Variable createPcmBlob : Float32Array -> Blob.
Variable stop_throws : handle -> bool.

Local Abbreviation capture_step := (LiveSession.capture_step createPcmBlob).
Local Abbreviation capture_run := (LiveSession.capture_run createPcmBlob).
Local Abbreviation cleanupAudio := (LiveSession.cleanupAudio stop_throws).

(** With the input context or the stream missing, [onopen] returns before
    it installs the handler: no frame is captured, nothing is queued or
    sent, and the refs stay as they are. *)
Lemma capture_inert (evs : list capture_event) :
  forall p : page,
    inputAudioContextRef (page_refs p) = None \/ streamRef (page_refs p) = None ->
    onaudioprocess_scope p = None ->
    queued p = [] ->
    snd (capture_run evs p) = [] /\
    page_refs (fst (capture_run evs p)) = page_refs p /\
    onaudioprocess_scope (fst (capture_run evs p)) = None.
Proof.
  induction evs as [|ev evs IH]; intros p Hr Hs Hq; [repeat split; assumption|].
  rewrite capture_run_cons. cbn [fst snd].
  assert (Hstep : snd (capture_step ev p) = [] /\
                  page_refs (fst (capture_step ev p)) = page_refs p /\
                  onaudioprocess_scope (fst (capture_step ev p)) = None /\
                  queued (fst (capture_step ev p)) = []).
  { unfold queued in Hq |- *. apply app_eq_nil in Hq. destruct Hq as [Hm Hp].
    destruct ev as [source processor| |frame|ok|]; cbn [LiveSession.capture_step].
    - unfold onopen.
      destruct Hr as [Hr|Hr]; rewrite Hr;
        [|destruct (inputAudioContextRef (page_refs p))];
        cbn [fst snd]; rewrite Hm, Hp; repeat split; assumption.
    - cbn. rewrite Hm, Hp. repeat split; assumption.
    - rewrite Hs. cbn [fst snd]. rewrite Hm, Hp. repeat split; assumption.
    - destruct (sessionPromise p) as [reactions| |] eqn:Ep; cbn; rewrite ?Ep, ?Hm;
        cbn in Hp; rewrite ?Hp; repeat split; try assumption; destruct ok; reflexivity.
    - rewrite Hm. cbn [fst snd]. rewrite Hm, Hp. repeat split; assumption.
  }
  destruct Hstep as (Ho & Hr1 & Hs1 & Hq1).
  destruct (IH (fst (capture_step ev p)) ltac:(rewrite Hr1; exact Hr) Hs1 Hq1)
    as (Ho2 & Hr2 & Hs2).
  rewrite Ho, Ho2, Hr2, Hr1. repeat split. exact Hs2.
Qed.

(** [getUserMedia] is refused: the failure is logged, the two contexts
    stay in the refs, no stream and no session are stored; whatever
    happens afterwards no audio is sent, and the teardown closes the two
    contexts. *)
Theorem refused_microphone_sends_nothing
        (input output session : handle) (evs : list capture_event) :
  let failed :=
    (connectToLive_begin input output ;; connectToLive_resume None session)
      initial_refs in
  let final := fst (capture_run evs (initial_page (state_of failed))) in
  outcome_of failed = Normal tt /\
  effects_of failed = [ConsoleError "Setup failed"] /\
  streamRef (state_of failed) = None /\
  sessionRef (state_of failed) = None /\
  snd (capture_run evs (initial_page (state_of failed))) = [] /\
  cleanupAudio (page_refs final)
  = (Normal tt, initial_refs, [ContextClose input; ContextClose output]).
Proof.
  intros failed final.
  destruct (capture_inert evs (initial_page (state_of failed)))
    as (Hsent & Hrefs & _); [right; reflexivity|reflexivity|reflexivity|].
  repeat split; [exact Hsent|].
  unfold final. rewrite Hrefs. reflexivity.
Qed.

(** The component is torn down while [getUserMedia] is pending: the
    teardown closes the two contexts; the stream and the session promise
    that arrive afterwards are stored in the refs all the same, with no
    release call made for them, and since [onopen] then finds the input
    context null, no audio is ever captured or sent. *)
Theorem teardown_during_setup
        (input output session : handle) (stream : MediaStream)
        (evs : list capture_event) :
  let raced :=
    (connectToLive_begin input output ;; cleanupAudio ;;
     connectToLive_resume (Some stream) session) initial_refs in
  let final := fst (capture_run evs (initial_page (state_of raced))) in
  outcome_of raced = Normal tt /\
  effects_of raced = [ContextClose input; ContextClose output] /\
  state_of raced
  = set_sessionRef (Some session) (set_streamRef (Some stream) initial_refs) /\
  snd (capture_run evs (initial_page (state_of raced))) = [] /\
  page_refs final = state_of raced.
Proof.
  intros raced final.
  destruct (capture_inert evs (initial_page (state_of raced)))
    as (Hsent & Hrefs & _); [left; reflexivity|reflexivity|reflexivity|].
  repeat split; [exact Hsent|exact Hrefs].
Qed.

End SetupFailureFacts.

(** ** The chat class *)

Section ChatFacts.

Import Gemini JsMore Service.

Variable generateText : text_request -> outcome generate_response.
Variable fetch_chat : chat_request -> outcome http_response.
Variable gemini_sendMessage : gemini_chat -> string -> outcome generate_response.
Variable trim : string -> string.

Local Abbreviation sendMessage := (Service.sendMessage fetch_chat gemini_sendMessage).
Local Abbreviation send_all := (Service.send_all fetch_chat gemini_sendMessage).
Local Abbreviation fetchDailyJoke := (Service.fetchDailyJoke generateText trim).

(** A chat completion logs one line when it rejects and none when it
    resolves. *)
Lemma chat_call_run (request : chat_request) (name : string) :
  chat_call fetch_chat request name tt
  = (run_async (chat_call fetch_chat request name), tt,
     match run_async (chat_call fetch_chat request name) with
     | Normal _ => []
     | Throw _ => [(name ++ " Call Failed")%string]
     end).
Proof.
  unfold chat_call, run_async, try_catch, bind, lift, throw, emit.
  destruct (fetch_chat request) as [response|e]; [|reflexivity].
  destruct (ok response); cbn [negb].
  - destruct (body_json response) as [data|e]; [|reflexivity].
    destruct (first_choice_content data); reflexivity.
  - destruct (body_text response); reflexivity.
Qed.

(** One exchange of a chat that keeps its own history: the question is
    appended before the call, the reply after it; a failed call is
    answered with the fixed text and leaves the question in the history. *)
Lemma send_with_history_run (call : list turn -> Async jsval) (label trouble : string)
      (message : string) (this : MultiProviderChat) (h : list turn) :
  this_chatHistory this = Some h ->
  send_with_history call label trouble message this
  = match run_async (call (h ++ [user_turn message])) with
    | Normal responseText =>
        (Normal responseText,
         set_chatHistory (h ++ [user_turn message; assistant_turn responseText]) this,
         effects_of (call (h ++ [user_turn message]) tt))
    | Throw _ =>
        (Normal (JString trouble),
         set_chatHistory (h ++ [user_turn message]) this,
         effects_of (call (h ++ [user_turn message]) tt) ++ [label])
    end.
Proof.
  intros Hh. unfold send_with_history, push_turn.
  unfold bind at 1. unfold bind at 1. unfold get at 1. rewrite Hh.
  unfold modify at 1. cbn [List.app].
  unfold try_catch, bind, get, embed, run_async, effects_of.
  cbn [this_chatHistory set_chatHistory].
  destruct (call (h ++ [user_turn message]) tt) as [[[c|e] []] logs]; cbn [fst snd].
  - unfold modify, ret. cbn. rewrite map_id, app_nil_r, <- List.app_assoc. reflexivity.
  - unfold emit, ret. cbn. rewrite map_id. reflexivity.
Qed.

(** [sendMessage] on a chat that keeps a history, by the outcome of the
    call it makes. *)
Lemma sendMessage_on_branch (message : string) (this : MultiProviderChat)
      (h : list turn) (b : branch) :
  branch_of fetch_chat this = Some b ->
  this_chatHistory this = Some h ->
  sendMessage message this
  = match run_async (branch_call b (h ++ [user_turn message])) with
    | Normal reply =>
        (Normal reply,
         set_chatHistory (h ++ [user_turn message; assistant_turn reply]) this, [])
    | Throw _ =>
        (Normal (JString (branch_trouble b)),
         set_chatHistory (h ++ [user_turn message]) this,
         [(branch_name b ++ " Call Failed")%string; branch_log b])
    end.
Proof.
  intros Hb Hh. unfold Service.sendMessage. unfold bind at 1. unfold get at 1.
  unfold branch_of in Hb.
  destruct (this_provider this); [discriminate| |]; injection Hb as <-;
    rewrite (send_with_history_run _ _ _ message this h Hh);
    cbn [branch_call branch_name branch_log branch_trouble];
    unfold callDeepSeek_chat, callSiliconFlow_chat;
    rewrite chat_call_run; unfold effects_of; cbn [snd];
    match goal with |- context [run_async ?c] => destruct (run_async c) end;
    reflexivity.
Qed.

Lemma replies_follow_questions_weaken (h : list turn) :
  replies_follow_questions false h -> replies_follow_questions true h.
Proof.
  destruct h as [|t rest]; [trivial|]. cbn.
  destruct (String.eqb (turn_role t) "assistant"); [intros [H _]; discriminate|trivial].
Qed.

(** The shape of a conversation: one reply for each message; the history
    is extended, by the messages as user turns, in order, each followed
    by at most one assistant turn. *)
Lemma conversation_shape (call : list turn -> outcome jsval) (trouble : string)
      (messages : list string) :
  forall h : list turn,
    List.length (fst (conversation call trouble h messages)) = List.length messages /\
    exists new,
      snd (conversation call trouble h messages) = h ++ new /\
      filter is_user_turn new = map user_turn messages /\
      replies_follow_questions false new.
Proof.
  induction messages as [|m messages IH]; intros h.
  - split; [reflexivity|]. exists []. cbn. rewrite app_nil_r. repeat split.
  - cbn [conversation]. cbv zeta.
    destruct (call (h ++ [user_turn m])) as [reply|e].
    + destruct (IH ((h ++ [user_turn m]) ++ [assistant_turn reply]))
        as (Hl & new & Hs & Hf & Hr).
      destruct (conversation call trouble _ messages) as [replies h'].
      cbn [fst snd] in *. split; [cbn; rewrite Hl; reflexivity|].
      exists (user_turn m :: assistant_turn reply :: new).
      rewrite Hs, <- !List.app_assoc. split; [reflexivity|].
      cbn. rewrite Hf. repeat split. exact Hr.
    + destruct (IH (h ++ [user_turn m])) as (Hl & new & Hs & Hf & Hr).
      destruct (conversation call trouble _ messages) as [replies h'].
      cbn [fst snd] in *. split; [cbn; rewrite Hl; reflexivity|].
      exists (user_turn m :: new).
      rewrite Hs, <- !List.app_assoc. split; [reflexivity|].
      cbn. rewrite Hf. split; [reflexivity|].
      apply replies_follow_questions_weaken, Hr.
Qed.

Lemma send_all_conversation (messages : list string) :
  forall (this : MultiProviderChat) (h : list turn) (b : branch),
    branch_of fetch_chat this = Some b ->
    this_chatHistory this = Some h ->
    let expected :=
      conversation (fun asked => run_async (branch_call b asked)) (branch_trouble b)
                   h messages in
    outcome_of (send_all messages this) = Normal (fst expected) /\
    this_chatHistory (state_of (send_all messages this)) = Some (snd expected).
Proof.
  induction messages as [|m messages IH]; intros this h b Hb Hh expected.
  - split; [reflexivity|exact Hh].
  - subst expected. cbn [Service.send_all conversation]. cbv zeta.
    unfold bind, ret. rewrite (sendMessage_on_branch m this h b Hb Hh).
    destruct (run_async (branch_call b (h ++ [user_turn m]))) as [reply|e].
    + replace ((h ++ [user_turn m]) ++ [assistant_turn reply])
        with (h ++ [user_turn m; assistant_turn reply])
        by (rewrite <- List.app_assoc; reflexivity).
      specialize (IH (set_chatHistory (h ++ [user_turn m; assistant_turn reply]) this)
                     (h ++ [user_turn m; assistant_turn reply]) b Hb eq_refl).
      cbv zeta in IH. destruct IH as [Ho Hs].
      destruct (conversation _ (branch_trouble b) _ messages) as [replies h'].
      destruct (send_all messages _) as [[res st] out].
      unfold outcome_of, state_of in *. cbn [fst snd] in *. subst res.
      split; [reflexivity|exact Hs].
    + specialize (IH (set_chatHistory (h ++ [user_turn m]) this)
                     (h ++ [user_turn m]) b Hb eq_refl).
      cbv zeta in IH. destruct IH as [Ho Hs].
      destruct (conversation _ (branch_trouble b) _ messages) as [replies h'].
      destruct (send_all messages _) as [[res st] out].
      unfold outcome_of, state_of in *. cbn [fst snd] in *. subst res.
      split; [reflexivity|exact Hs].
Qed.

(** A chat with DeepSeek or SiliconFlow, any messages sent one after the
    other, any behaviour of the provider.  No call rejects.  A message
    whose call resolves is replied to with the answer, and the question
    and the answer join the history; a message whose call rejects is
    replied to with the fixed sentence of the branch, and the question
    joins the history without an answer.  So there is one reply for each
    message, the history is only ever extended (the system instruction
    stays at its head), the questions in it are the messages sent, in
    order, and every reply of the assistant stands directly after a
    question. *)
Theorem chat_history_only_grows (messages : list string) :
  forall (this : MultiProviderChat) (h : list turn) (b : branch),
    branch_of fetch_chat this = Some b ->
    this_chatHistory this = Some h ->
    let call := fun asked => run_async (branch_call b asked) in
    let expected := conversation call (branch_trouble b) h messages in
    outcome_of (send_all messages this) = Normal (fst expected) /\
    this_chatHistory (state_of (send_all messages this)) = Some (snd expected) /\
    List.length (fst expected) = List.length messages /\
    (exists new,
        snd expected = h ++ new /\
        filter is_user_turn new = map user_turn messages /\
        replies_follow_questions false new) /\
    (forall message,
        match call (h ++ [user_turn message]) with
        | Normal reply =>
            outcome_of (sendMessage message this) = Normal reply /\
            this_chatHistory (state_of (sendMessage message this))
            = Some (h ++ [user_turn message; assistant_turn reply])
        | Throw _ =>
            outcome_of (sendMessage message this) = Normal (JString (branch_trouble b)) /\
            this_chatHistory (state_of (sendMessage message this))
            = Some (h ++ [user_turn message])
        end).
Proof.
  intros this h b Hb Hh call expected.
  destruct (send_all_conversation messages this h b Hb Hh) as [Ho Hs].
  destruct (conversation_shape call (branch_trouble b) messages h) as [Hl Hnew].
  split; [exact Ho|]. split; [exact Hs|]. split; [exact Hl|]. split; [exact Hnew|].
  intros message. rewrite (sendMessage_on_branch message this h b Hb Hh).
  subst call. cbv beta.
  destruct (run_async (branch_call b (h ++ [user_turn message]))); split; reflexivity.
Qed.

(** With Gemini as the provider [sendMessage] has no [catch]: it rejects
    when the call of the SDK does, and resolves with the text of the
    answer otherwise. *)
Lemma sendMessage_gemini (message : string) (this : MultiProviderChat)
      (chat : gemini_chat) :
  this_provider this = ProviderGemini ->
  this_geminiChat this = Some chat ->
  outcome_of (sendMessage message this)
  = match gemini_sendMessage chat message with
    | Normal result =>
        Normal (match response_text result with
                | Some text => JString text
                | None => JUndefined
                end)
    | Throw e => Throw e
    end.
Proof.
  intros Hp Hc. unfold Service.sendMessage, outcome_of, bind, get, modify, settled, ret.
  rewrite Hp, Hc. destruct (gemini_sendMessage chat message); reflexivity.
Qed.

End ChatFacts.

(** ** Which provider an analysis is sent to *)

Section RoutingFacts.

Import Gemini.

Variable JSON_parse : jsval -> outcome jsval.
Variable match_data_url : string -> option (string * string).

Lemma route_with_attachments (attachments : list string) (config : option AIConfig) :
  attachments <> [] ->
  useDeepSeek (route attachments config) = false /\
  useSiliconFlow (route attachments config) = false.
Proof.
  intros H. destruct attachments as [|a rest]; [contradiction|].
  unfold route. cbn [useDeepSeek useSiliconFlow List.length Nat.eqb negb].
  rewrite !andb_false_r. split; reflexivity.
Qed.

(** An entry with attachments is never sent to DeepSeek or SiliconFlow,
    whatever the configuration: the analysis does not depend on what
    [fetch] would do. *)
Theorem attachments_are_never_fetched
        (generateContent : generate_request -> outcome generate_response)
        (fetch1 fetch2 : fetch_request -> outcome http_response)
        (text : string) (attachments : list string) (config : option AIConfig) :
  attachments <> [] ->
  analyzeDiaryEntry generateContent fetch1 JSON_parse match_data_url
                    text attachments config tt
  = analyzeDiaryEntry generateContent fetch2 JSON_parse match_data_url
                      text attachments config tt.
Proof.
  intros H. destruct (route_with_attachments attachments config H) as [Hd Hs].
  unfold analyzeDiaryEntry, analyze_attempt. cbv zeta. rewrite Hd, Hs.
  destruct (truthy (route_apiKey (route attachments config))); reflexivity.
Qed.

(** The key of DeepSeek or SiliconFlow is never handed to Gemini: with one
    of them configured, Gemini is only ever called through the default
    client, so the analysis does not depend on what a client made from a
    key would answer. *)
Theorem foreign_key_never_reaches_gemini
        (generateContent1 generateContent2 : generate_request -> outcome generate_response)
        (fetch : fetch_request -> outcome http_response)
        (text : string) (attachments : list string) (config : AIConfig) :
  is_Gemini (provider config) = false ->
  (forall request, client_key request = None ->
                   generateContent1 request = generateContent2 request) ->
  analyzeDiaryEntry generateContent1 fetch JSON_parse match_data_url
                    text attachments (Some config) tt
  = analyzeDiaryEntry generateContent2 fetch JSON_parse match_data_url
                      text attachments (Some config) tt.
Proof.
  intros Hp Hsame.
  unfold analyzeDiaryEntry, analyze_attempt. cbv zeta.
  destruct (useDeepSeek (route attachments (Some config))),
           (useSiliconFlow (route attachments (Some config))),
           (truthy (route_apiKey (route attachments (Some config))));
    try reflexivity;
    unfold try_catch, bind, lift;
    cbn [route route_provider]; rewrite Hp;
    match goal with
    | |- context [generateContent1 ?request] =>
        rewrite (Hsame request eq_refl)
    end;
    reflexivity.
Qed.

End RoutingFacts.

(** ** The chat panel *)

Section ChatPanelFacts.

Import Gemini JsMore Service ChatAssistant.

Variable fetch_chat : chat_request -> outcome http_response.
Variable gemini_sendMessage : gemini_chat -> string -> outcome generate_response.
Variable trim : string -> string.

Local Abbreviation sendMessage := (Service.sendMessage fetch_chat gemini_sendMessage).
Local Abbreviation accepts := (ChatAssistant.accepts trim).
Local Abbreviation handleSend :=
  (ChatAssistant.handleSend fetch_chat gemini_sendMessage trim).

Lemma or_else_truthy (v d : jsval) : truthy_js d = true -> truthy_js (or_else v d) = true.
Proof. intros H. unfold or_else. destruct (truthy_js v) eqn:E; assumption. Qed.

(** What an accepted [handleSend] does, in terms of the outcome of
    [sendMessage] on the session it finds or creates. *)
Lemma handleSend_run (aiConfig : option AIConfig) (seen st : assistant)
      (now1 now2 now3 now4 : Z) :
  accepts seen = true ->
  let session :=
    match chatSessionRef st with
    | Some this => this
    | None => createChatSession "用户暂无近期日记。" aiConfig
    end in
  let userMsg := {| msg_id := toString now1; msg_role := RoleUser;
                    msg_text := JString (input seen); msg_timestamp := now2 |} in
  let sent := sendMessage (input seen) session in
  let text :=
    match outcome_of sent with
    | Normal responseText => or_else responseText (JString still_listening)
    | Throw _ => JString connection_trouble
    end in
  handleSend aiConfig seen now1 now2 now3 now4 st
  = (Normal tt,
     {| messages := messages st
                    ++ [userMsg;
                        {| msg_id := toString (now3 + 1); msg_role := RoleModel;
                           msg_text := text; msg_timestamp := now4 |}];
        input := "";
        isLoading := false;
        chatSessionRef := Some (state_of sent) |},
     effects_of sent
     ++ match outcome_of sent with Normal _ => [] | Throw e => [e] end).
Proof.
  intros Ha session userMsg sent text.
  unfold ChatAssistant.handleSend. rewrite Ha. cbn [negb].
  subst text sent session. unfold outcome_of, state_of, effects_of.
  unfold try_finally, try_catch, bind, modify, get, emit, ret, on_session.
  destruct (chatSessionRef st) as [this|] eqn:Hs;
    repeat (cbn -[Service.sendMessage toString or_else app createChatSession];
            rewrite ?Hs);
    match goal with
    | |- context [Service.sendMessage _ _ ?m ?th] =>
        destruct (Service.sendMessage fetch_chat gemini_sendMessage m th)
          as [[[v|e] this'] logs]
    end;
    unfold setIsLoading, add_message, set_chatSessionRef, setInput;
    cbn -[toString or_else createChatSession];
    rewrite <- ?List.app_assoc, ?app_nil_r; reflexivity.
Qed.

(** [handleSend] never rejects.  A send that passes the guard adds exactly
    two messages to the conversation, the user's text and one message of
    the model whose text is not empty, whatever the provider does; it
    clears the input and ends with the loading flag down.  A send that the
    guard stops changes nothing. *)
Theorem handleSend_adds_one_exchange (aiConfig : option AIConfig) (seen st : assistant)
        (now1 now2 now3 now4 : Z) :
  let r := handleSend aiConfig seen now1 now2 now3 now4 st in
  outcome_of r = Normal tt /\
  if accepts seen then
    exists reply,
      messages (state_of r)
      = messages st
        ++ [ {| msg_id := toString now1; msg_role := RoleUser;
                msg_text := JString (input seen); msg_timestamp := now2 |};
             reply ] /\
      msg_role reply = RoleModel /\
      truthy_js (msg_text reply) = true /\
      input (state_of r) = "" /\
      isLoading (state_of r) = false /\
      chatSessionRef (state_of r) <> None
  else r = (Normal tt, st, []).
Proof.
  intros r. subst r. destruct (accepts seen) eqn:Ha.
  - rewrite (handleSend_run aiConfig seen st now1 now2 now3 now4 Ha). cbv zeta.
    split; [reflexivity|]. eexists. cbn [state_of fst snd messages input isLoading
                                         chatSessionRef].
    split; [reflexivity|]. cbn [msg_role msg_text].
    repeat split; [|discriminate].
    destruct (outcome_of _); [apply or_else_truthy|]; reflexivity.
  - unfold ChatAssistant.handleSend. rewrite Ha. split; reflexivity.
Qed.

(** A send from the panel on a DeepSeek or SiliconFlow session.  When the
    call resolves, the question and the answer join the history of the
    session and the panel shows the answer (the stand-in when the answer
    is falsy), with nothing on the console.  When the call rejects, the
    question joins the history without an answer, the panel shows the
    sentence of the branch, and the console holds the two lines of the
    service: the rejection is caught in [sendMessage] and does not reach
    the panel, whose own text about the connection is not shown.  Either
    way the handler resolves with the loading flag down. *)
Theorem handleSend_records_the_question
        (aiConfig : option AIConfig) (seen st : assistant) (this : MultiProviderChat)
        (h : list turn) (b : branch) (now1 now2 now3 now4 : Z) :
  accepts seen = true ->
  chatSessionRef st = Some this ->
  branch_of fetch_chat this = Some b ->
  this_chatHistory this = Some h ->
  let r := handleSend aiConfig seen now1 now2 now3 now4 st in
  let asked := h ++ [user_turn (input seen)] in
  outcome_of r = Normal tt /\
  isLoading (state_of r) = false /\
  match run_async (branch_call b asked) with
  | Normal reply =>
      chatSessionRef (state_of r)
      = Some (set_chatHistory (asked ++ [assistant_turn reply]) this) /\
      map msg_text (messages (state_of r))
      = map msg_text (messages st)
        ++ [JString (input seen); or_else reply (JString still_listening)] /\
      effects_of r = []
  | Throw _ =>
      chatSessionRef (state_of r) = Some (set_chatHistory asked this) /\
      map msg_text (messages (state_of r))
      = map msg_text (messages st)
        ++ [JString (input seen); JString (branch_trouble b)] /\
      effects_of r = [(branch_name b ++ " Call Failed")%string; branch_log b]
  end.
Proof.
  intros Ha Hs Hb Hh r asked. subst r asked.
  rewrite (handleSend_run aiConfig seen st now1 now2 now3 now4 Ha). cbv zeta.
  rewrite Hs.
  rewrite (sendMessage_on_branch fetch_chat gemini_sendMessage (input seen) this h b
                                 Hb Hh).
  assert (Ht : or_else (JString (branch_trouble b)) (JString still_listening)
               = JString (branch_trouble b)).
  { unfold branch_of in Hb. destruct (this_provider this); [discriminate| |];
      injection Hb as <-; reflexivity. }
  destruct (run_async (branch_call b (h ++ [user_turn (input seen)]))) as [reply|e];
    cbn [outcome_of state_of effects_of fst snd messages isLoading chatSessionRef
         List.app];
    rewrite map_app, <- ?List.app_assoc; cbn [map msg_text List.app];
    rewrite ?Ht; repeat split.
Qed.

(** A send on a Gemini session whose call is rejected: [sendMessage] has
    no [catch] of its own on this branch, the rejection reaches the panel,
    which logs it and shows its text about the connection; the loading
    flag is down again. *)
Theorem rejected_gemini_call_is_shown
        (aiConfig : option AIConfig) (seen st : assistant) (this : MultiProviderChat)
        (chat : gemini_chat) (e : string) (now1 now2 now3 now4 : Z) :
  accepts seen = true ->
  chatSessionRef st = Some this ->
  this_provider this = ProviderGemini ->
  this_geminiChat this = Some chat ->
  gemini_sendMessage chat (input seen) = Throw e ->
  let r := handleSend aiConfig seen now1 now2 now3 now4 st in
  outcome_of r = Normal tt /\
  map msg_text (messages (state_of r))
  = map msg_text (messages st) ++ [JString (input seen); JString connection_trouble] /\
  effects_of r = [e] /\
  isLoading (state_of r) = false.
Proof.
  intros Ha Hs Hp Hc He r. subst r.
  rewrite (handleSend_run aiConfig seen st now1 now2 now3 now4 Ha). cbv zeta.
  rewrite Hs.
  assert (E : exists this',
             sendMessage (input seen) this = (Throw e, this', [])).
  { unfold Service.sendMessage, bind, get, modify, settled, ret.
    rewrite Hp, Hc, He. eexists. reflexivity. }
  destruct E as (this' & E). rewrite E.
  cbn [outcome_of state_of effects_of fst snd messages isLoading List.app].
  rewrite map_app. repeat split.
Qed.

End ChatPanelFacts.

(** ** Saving an entry, dictation, the daily joke *)

Section DiaryFacts.

Import Gemini JsMore Service App.

Variable analyze : string -> list string -> Async jsval.
Variable generateText : text_request -> outcome generate_response.
Variable trim : string -> string.
Variable toISOString : Z -> string -> outcome string.

Local Abbreviation nothing_to_save := (App.nothing_to_save trim).
Local Abbreviation handleSaveEntry := (App.handleSaveEntry analyze trim toISOString).
Local Abbreviation onstop := (App.onstop generateText).
Local Abbreviation checkAndFetchJoke := (App.checkAndFetchJoke generateText trim).

Lemma alerts_app (a b : list effect) : alerts (a ++ b) = alerts a ++ alerts b.
Proof. apply flat_map_app. Qed.

Lemma alerts_console (logs : list string) : alerts (map ConsoleError logs) = [].
Proof. induction logs as [|l logs IH]; [reflexivity|exact IH]. Qed.

Lemma track_stops_app (a b : list effect) :
  track_stops (a ++ b) = track_stops a ++ track_stops b.
Proof. apply flat_map_app. Qed.

Lemma track_stops_console (logs : list string) : track_stops (map ConsoleError logs) = [].
Proof. induction logs as [|l logs IH]; [reflexivity|exact IH]. Qed.

Lemma track_stops_map (stream : list nat) : track_stops (map TrackStop stream) = stream.
Proof. induction stream as [|t l IH]; [reflexivity|]. cbn. f_equal. exact IH. Qed.

Lemma alerts_map_track (stream : list nat) : alerts (map TrackStop stream) = [].
Proof. induction stream as [|t l IH]; [reflexivity|exact IH]. Qed.

Lemma track_stop_loop_app (stream : list nat) (st : app) :
  forEach stream (fun track => emit (TrackStop track)) st
  = (Normal tt, st, map TrackStop stream).
Proof.
  induction stream as [|t l IH]; [reflexivity|].
  cbn [forEach]. unfold bind at 1. unfold emit at 1. rewrite IH. reflexivity.
Qed.

(** The entry [handleSaveEntry] builds from an analysis and a date. *)
Lemma handleSaveEntry_run (seen st : app) (now_date now_id : Z) :
  nothing_to_save seen = false ->
  handleSaveEntry seen now_date now_id st
  = let '(settled_with, _, logs) :=
      analyze (newEntryText seen) (newEntryAttachments seen) tt in
    let failed (e : string) :=
      (Normal tt, setIsAnalyzing false st,
       map ConsoleError logs ++ [ConsoleError e; Alert analysis_failed]) in
    match settled_with with
    | Throw e => failed e
    | Normal analysis =>
        match toISOString now_date (filterDate seen) with
        | Throw e => failed e
        | Normal date =>
            match get_prop analysis "moodScore", get_prop analysis "tags",
                  get_prop analysis "summary", get_prop analysis "advice" with
            | Normal moodScore, Normal tags, Normal summary, Normal advice =>
                (Normal tt,
                 {| view := DASHBOARD;
                    entries :=
                      {| entry_id := toString now_id;
                         entry_content := newEntryText seen;
                         entry_date := date;
                         entry_moodScore := or_else moodScore (JNumber 5);
                         entry_tags := or_else tags (JArray []);
                         entry_summary := or_else summary (JString "暂无总结");
                         entry_advice := or_else advice (JString "继续加油！");
                         entry_attachments := newEntryAttachments seen |}
                      :: entries seen;
                    newEntryText := "";
                    newEntryAttachments := [];
                    isAnalyzing := false;
                    dailyJoke := dailyJoke st;
                    showDateFilter := false;
                    filterDate := "";
                    isTranscribing := isTranscribing st |},
                 map ConsoleError logs)
            | _, _, _, _ => failed "TypeError"
            end
        end
    end.
Proof.
  intros Hg. unfold App.handleSaveEntry. rewrite Hg.
  unfold try_finally, try_catch, bind, modify, get, emit, ret, embed, settled.
  destruct (analyze (newEntryText seen) (newEntryAttachments seen) tt)
    as [[[analysis|e] []] logs].
  - destruct (toISOString now_date (filterDate seen)) as [date|e].
    + destruct analysis; cbn -[toString or_else]; rewrite ?app_nil_r; reflexivity.
    + cbn. rewrite ?app_nil_r. reflexivity.
  - cbn. rewrite ?app_nil_r. reflexivity.
Qed.

(** [handleSaveEntry] never rejects.  With something to save it ends with
    the analysing flag down, and either the new entry stands in front of
    the entries the handler saw, with the text and the attachments of the
    draft and a truthy score, tags, summary and advice, the draft is
    cleared and the dashboard is shown, without an alert; or nothing but
    the flag is touched and the one alert is shown.  With nothing to save
    it does nothing. *)
Theorem handleSaveEntry_saves_or_alerts (seen st : app) (now_date now_id : Z) :
  let r := handleSaveEntry seen now_date now_id st in
  outcome_of r = Normal tt /\
  if nothing_to_save seen then r = (Normal tt, st, [])
  else
    isAnalyzing (state_of r) = false /\
    ((exists e,
        entries (state_of r) = e :: entries seen /\
        entry_id e = toString now_id /\
        entry_content e = newEntryText seen /\
        entry_attachments e = newEntryAttachments seen /\
        truthy_js (entry_moodScore e) = true /\
        truthy_js (entry_tags e) = true /\
        truthy_js (entry_summary e) = true /\
        truthy_js (entry_advice e) = true /\
        newEntryText (state_of r) = "" /\
        newEntryAttachments (state_of r) = [] /\
        filterDate (state_of r) = "" /\
        view (state_of r) = DASHBOARD /\
        alerts (effects_of r) = [])
     \/ (state_of r = setIsAnalyzing false st /\
         alerts (effects_of r) = [analysis_failed])).
Proof.
  intros r. subst r. destruct (nothing_to_save seen) eqn:Hg.
  - unfold App.handleSaveEntry. rewrite Hg. split; reflexivity.
  - rewrite (handleSaveEntry_run seen st now_date now_id Hg).
    destruct (analyze (newEntryText seen) (newEntryAttachments seen) tt)
      as [[[analysis|e] []] logs]; cbv zeta.
    + destruct (toISOString now_date (filterDate seen)) as [date|e].
      * destruct (get_prop analysis "moodScore"), (get_prop analysis "tags"),
          (get_prop analysis "summary"), (get_prop analysis "advice");
          (split; [reflexivity|split; [reflexivity|]]);
          cbn [state_of effects_of fst snd];
          try (right; split; [reflexivity|];
               rewrite alerts_app, alerts_console; reflexivity).
        left. eexists. split; [reflexivity|].
        cbn [entry_id entry_content entry_attachments entry_moodScore entry_tags
             entry_summary entry_advice newEntryText newEntryAttachments filterDate view].
        repeat split; try (apply or_else_truthy; reflexivity).
        apply alerts_console.
      * repeat split. right. split; [reflexivity|].
        cbn [effects_of snd]. rewrite alerts_app, alerts_console. reflexivity.
    + repeat split. right. split; [reflexivity|].
      cbn [effects_of snd]. rewrite alerts_app, alerts_console. reflexivity.
Qed.

End DiaryFacts.

(** ** The handlers of [App] on top of the service *)

Section DiaryOnServiceFacts.

Import Gemini JsMore Service App.

Variable generateContent : generate_request -> outcome generate_response.
Variable fetch : fetch_request -> outcome http_response.
Variable JSON_parse : jsval -> outcome jsval.
Variable match_data_url : string -> option (string * string).
Variable generateText : text_request -> outcome generate_response.
Variable trim : string -> string.
Variable toISOString : Z -> string -> outcome string.

(** [analyzeDiaryEntry(text, attachments)] as [App] calls it, on the two
    versions of the service. *)
Local Abbreviation analyze_000 :=
  (analyzeDiaryEntry_000 generateContent JSON_parse match_data_url).
Local Abbreviation analyze_001 :=
  (fun text attachments =>
     analyzeDiaryEntry generateContent fetch JSON_parse match_data_url
                       text attachments None).
Local Abbreviation nothing_to_save := (App.nothing_to_save trim).
Local Abbreviation onstop := (App.onstop generateText).
Local Abbreviation checkAndFetchJoke := (App.checkAndFetchJoke generateText trim).

Lemma analyze_000_offline (e text : string) (attachments : list string) :
  (forall request, generateContent request = Throw e) ->
  analyze_000 text attachments tt = (Normal default_analysis_000, tt, ["Analysis failed"]).
Proof.
  intros H. unfold analyzeDiaryEntry_000, analyze_attempt_000, try_catch, bind, lift.
  rewrite H. reflexivity.
Qed.

Lemma analyze_001_offline (e text : string) (attachments : list string) :
  (forall request, generateContent request = Throw e) ->
  analyze_001 text attachments tt = (Normal default_analysis, tt, ["Analysis failed"]).
Proof.
  intros H. unfold analyzeDiaryEntry, analyze_attempt, route, try_catch, bind, lift.
  cbn [useDeepSeek useSiliconFlow is_DeepSeek is_SiliconFlow andb route_apiKey truthy
       route_provider is_Gemini hasAttachments orb].
  rewrite andb_false_r. rewrite H. reflexivity.
Qed.

(** The provider cannot be reached: the entry is saved all the same, with
    the score 5 and the stand-in tags, summary and advice of the service,
    one line on the console and no alert. *)
Theorem entry_saved_when_provider_is_down
        (seen st : app) (now_date now_id : Z) (e date : string) :
  (forall request, generateContent request = Throw e) ->
  toISOString now_date (filterDate seen) = Normal date ->
  nothing_to_save seen = false ->
  let saved (tags summary advice : jsval) (r : outcome unit * app * list effect) :=
    outcome_of r = Normal tt /\
    entries (state_of r)
    = {| entry_id := toString now_id;
         entry_content := newEntryText seen;
         entry_date := date;
         entry_moodScore := JNumber 5;
         entry_tags := tags;
         entry_summary := summary;
         entry_advice := advice;
         entry_attachments := newEntryAttachments seen |} :: entries seen /\
    newEntryText (state_of r) = "" /\
    isAnalyzing (state_of r) = false /\
    effects_of r = [ConsoleError "Analysis failed"] in
  saved (JArray [JString "分析中断"]) (JString "暂时无法分析内容。")
        (JString "记录本身就是一种疗愈。")
        (App.handleSaveEntry analyze_001 trim toISOString seen now_date now_id st) /\
  saved (JArray [JString "未知"]) (JString "无法分析内容。")
        (JString "深呼吸，一切都会好起来的。")
        (App.handleSaveEntry analyze_000 trim toISOString seen now_date now_id st).
Proof.
  intros Hdown Hdate Hg saved. subst saved. cbv beta.
  rewrite !handleSaveEntry_run by exact Hg.
  rewrite (analyze_001_offline e _ _ Hdown), (analyze_000_offline e _ _ Hdown), Hdate.
  cbn -[toString]. repeat split.
Qed.

Lemma analyze_000_null (text0 text : string) (attachments : list string) :
  (forall request, generateContent request = Normal {| response_text := Some text0 |}) ->
  String.eqb text0 "" = false ->
  JSON_parse (JString text0) = Normal JNull ->
  analyze_000 text attachments tt = (Normal JNull, tt, []).
Proof.
  intros H Ht Hp.
  unfold analyzeDiaryEntry_000, analyze_attempt_000, try_catch, bind, lift,
    parse_response_text.
  rewrite H. cbn [response_text truthy]. rewrite Ht. unfold lift. rewrite Hp. reflexivity.
Qed.

Lemma analyze_001_null (text0 text : string) (attachments : list string) :
  (forall request, generateContent request = Normal {| response_text := Some text0 |}) ->
  String.eqb text0 "" = false ->
  JSON_parse (JString text0) = Normal JNull ->
  analyze_001 text attachments tt = (Normal JNull, tt, []).
Proof.
  intros H Ht Hp.
  unfold analyzeDiaryEntry, analyze_attempt, route, try_catch, bind, lift,
    parse_response_text.
  cbn [useDeepSeek useSiliconFlow is_DeepSeek is_SiliconFlow andb route_apiKey truthy
       route_provider is_Gemini hasAttachments orb].
  rewrite andb_false_r. rewrite H. cbn [response_text truthy]. rewrite Ht.
  unfold lift. rewrite Hp. reflexivity.
Qed.

(** The provider answers with the JSON text [null]: [analyzeDiaryEntry]
    resolves with [null], reading [analysis.moodScore] throws, and the
    entry is not saved: the state is as before, the draft included, and
    the alert is shown. *)
Theorem null_analysis_is_not_saved
        (seen st : app) (now_date now_id : Z) (text0 : string) :
  (forall request, generateContent request = Normal {| response_text := Some text0 |}) ->
  String.eqb text0 "" = false ->
  JSON_parse (JString text0) = Normal JNull ->
  nothing_to_save seen = false ->
  let dropped (r : outcome unit * app * list effect) :=
    outcome_of r = Normal tt /\
    state_of r = setIsAnalyzing false st /\
    alerts (effects_of r) = [analysis_failed] in
  dropped (App.handleSaveEntry analyze_001 trim toISOString seen now_date now_id st) /\
  dropped (App.handleSaveEntry analyze_000 trim toISOString seen now_date now_id st).
Proof.
  intros Hnull Ht Hp Hg dropped. subst dropped. cbv beta.
  rewrite !handleSaveEntry_run by exact Hg.
  rewrite (analyze_001_null text0 _ _ Hnull Ht Hp), (analyze_000_null text0 _ _ Hnull Ht Hp).
  destruct (toISOString now_date (filterDate seen)); cbn; repeat split.
Qed.

(** *** Dictation *)

Lemma transcribeAudio_run (base64Audio mimeType : string) (config : option AIConfig) :
  let client :=
    match config with
    | Some c => if is_Gemini (provider c) then truthy (apiKey c) else None
    | None => None
    end in
  transcribeAudio generateText base64Audio mimeType config tt
  = match generateText {| text_client := client;
                          text_parts := [InlineData mimeType base64Audio;
                                         Text transcription_prompt] |} with
    | Normal response =>
        (Normal match truthy (response_text response) with
                | Some text => text
                | None => ""
                end, tt, [])
    | Throw e => (Throw e, tt, ["Transcription failed"])
    end.
Proof.
  cbv zeta. unfold transcribeAudio, transcribe_with, try_catch, bind, lift, ret, emit, throw.
  destruct (generateText _); reflexivity.
Qed.

(** Once the recording is encoded, [onstop] never rejects, ends with the
    transcribing flag down and stops every track of the microphone stream
    once, in order, whether the transcription succeeds or not.  A
    transcript is appended to the draft after a space (it becomes the
    draft when the draft is empty); a failed transcription leaves the
    draft as it is and shows the alert.  The entries are not touched.
    When encoding the recording fails, [onstop] rejects and no track is
    stopped. *)
Theorem dictation_releases_the_microphone
        (stream : list nat) (base64Audio : string) (st : app) :
  let r := onstop stream (Normal base64Audio) st in
  outcome_of r = Normal tt /\
  isTranscribing (state_of r) = false /\
  track_stops (effects_of r) = stream /\
  entries (state_of r) = entries st /\
  match run_async (transcribeAudio generateText base64Audio "audio/webm" None) with
  | Normal text =>
      newEntryText (state_of r)
      = (if String.eqb (newEntryText st) "" then text
         else (newEntryText st ++ " " ++ text)%string) /\
      alerts (effects_of r) = []
  | Throw e =>
      newEntryText (state_of r) = newEntryText st /\
      alerts (effects_of r) = [transcription_failed]
  end /\
  forall e, onstop stream (Throw e) st = (Throw e, st, []).
Proof.
  intros r. subst r. unfold App.onstop, run_async.
  unfold try_finally, try_catch, bind, modify, get, emit, ret, embed, settled.
  rewrite (transcribeAudio_run base64Audio "audio/webm" None). cbv zeta.
  pose proof (track_stop_loop_app stream) as Hloop.
  destruct (generateText _) as [response|e]; cbn [fst snd].
  - rewrite Hloop. cbn -[track_stops alerts]. unfold outcome_of, state_of, effects_of.
    cbn [fst snd]. repeat split.
    + apply track_stops_map.
    + apply alerts_map_track.
  - rewrite Hloop. cbn -[track_stops alerts]. unfold outcome_of, state_of, effects_of.
    cbn [fst snd]. repeat split.
    + match goal with
      | |- track_stops (?a :: ?b :: ?c :: ?l) = _ =>
          change (track_stops ([a; b; c] ++ l) = stream)
      end.
      rewrite track_stops_app, track_stops_map. reflexivity.
    + match goal with
      | |- alerts (?a :: ?b :: ?c :: ?l) = _ =>
          change (alerts ([a; b; c] ++ l) = [transcription_failed])
      end.
      rewrite alerts_app, alerts_map_track. reflexivity.
Qed.

(** *** The daily joke *)

(** [fetchDailyJoke] never rejects and never resolves with the empty
    string. *)
Lemma fetchDailyJoke_run :
  exists (content : string) (logs : list string),
    fetchDailyJoke generateText trim tt = (Normal content, tt, logs) /\
    String.eqb content "" = false.
Proof.
  unfold fetchDailyJoke, try_catch, bind, lift, ret, emit.
  destruct (generateText _) as [response|e]; cbn.
  - destruct (response_text response) as [text|].
    + destruct (String.eqb (trim text) "") eqn:E; eexists _, _; split;
        try reflexivity; exact E.
    + eexists _, _; split; reflexivity.
  - eexists _, _; split; reflexivity.
Qed.

(** [checkAndFetchJoke] never rejects.  Without a joke of today it stores
    one whose text is not empty, whatever the provider does, and writes it
    to the local storage; run again on the state it leaves, on the same
    day, it does nothing.  With a joke of today it does nothing. *)
Theorem daily_joke_is_fetched_once (seen st : app) (today : string) :
  let r := checkAndFetchJoke seen today st in
  if needs_joke seen today then
    exists (content : string) (logs : list string),
      let newJoke := {| joke_date := today; joke_content := content |} in
      String.eqb content "" = false /\
      r = (Normal tt, setDailyJoke (Some newJoke) st,
           map ConsoleError logs ++ [StoreJoke newJoke]) /\
      checkAndFetchJoke (state_of r) today (state_of r) = (Normal tt, state_of r, [])
  else r = (Normal tt, st, []).
Proof.
  intros r. subst r. unfold App.checkAndFetchJoke.
  destruct (needs_joke seen today) eqn:Hn; [|reflexivity].
  destruct fetchDailyJoke_run as (content & logs & E & Hc).
  exists content, logs. cbv zeta. split; [exact Hc|].
  unfold bind, embed, modify, emit. rewrite E. cbn [fst snd List.app map].
  rewrite ?app_nil_r. split; [reflexivity|].
  unfold state_of, needs_joke. cbn [fst snd dailyJoke setDailyJoke joke_date].
  rewrite String.eqb_refl. reflexivity.
Qed.

End DiaryOnServiceFacts.

(** ** The theorems at work *)

Section ExampleRuns.

Import Gemini JsMore Service Examples.

(** The buffer of source 7 has ended when the interruption arrives: no
    [stop()] is called on it; without the [ended] event it is. *)
Lemma ended_buffer_is_spared :
  forallb (fun ev => negb (LiveSetup.settles_with 7%nat ev))
          [LiveSession.Message Scenario.interruption 200] = true /\
  ~ In 7%nat
      (LiveSession.stops
         (LiveSession.trace
            (LiveSession.run_log Scenario.base64ToUint8Array Scenario.decodeAudioData
               Scenario.stop_ok
               [LiveSession.Ended 7%nat; LiveSession.Message Scenario.interruption 200]
               playing_pump))) /\
  LiveSession.stops
    (LiveSession.trace
       (LiveSession.run_log Scenario.base64ToUint8Array Scenario.decodeAudioData
          Scenario.stop_ok
          [LiveSession.Message Scenario.interruption 200] playing_pump))
  = [7%nat].
Proof.
  split; [reflexivity|]. split; [|reflexivity].
  apply (ended_source_is_not_stopped Scenario.base64ToUint8Array Scenario.decodeAudioData
           Scenario.stop_ok 7%nat playing_pump
           [LiveSession.Message Scenario.interruption 200]).
  reflexivity.
Defined.

(** Two questions on a fresh DeepSeek session whose provider answers the
    first and cannot be reached for the second. *)
Lemma two_questions_on_deepseek :
  branch_of fetch_first_only deepseek_session
  = Some {| branch_name := "DeepSeek";
            branch_call := fun h => callDeepSeek_chat fetch_first_only h
                                      (Some "sk-example");
            branch_log := "DeepSeek Chat Error";
            branch_trouble := deepseek_trouble |} /\
  this_chatHistory deepseek_session = Some [system_turn deepseek_session] /\
  outcome_of (send_all fetch_first_only gemini_offline ["你好"; "还在吗"]
                       deepseek_session)
  = Normal [JString "我在这里。"; JString deepseek_trouble] /\
  this_chatHistory
    (state_of (send_all fetch_first_only gemini_offline ["你好"; "还在吗"]
                        deepseek_session))
  = Some [system_turn deepseek_session;
          user_turn "你好"; assistant_turn (JString "我在这里。");
          user_turn "还在吗"].
Proof.
  split; [reflexivity|]. split; [reflexivity|].
  destruct (chat_history_only_grows fetch_first_only gemini_offline ["你好"; "还在吗"]
              deepseek_session [system_turn deepseek_session] _ eq_refl eq_refl)
    as (Ho & Hh & _).
  split; [exact Ho|exact Hh].
Defined.

(** A question sent from the panel on a fresh DeepSeek session whose
    provider cannot be reached. *)
Lemma question_sent_on_deepseek :
  ChatAssistant.accepts nothing_to_trim (panel deepseek_session) = true /\
  ChatAssistant.chatSessionRef (panel deepseek_session) = Some deepseek_session /\
  this_chatHistory deepseek_session = Some [system_turn deepseek_session] /\
  (let r := ChatAssistant.handleSend offline gemini_offline nothing_to_trim
              (Some deepseek) (panel deepseek_session) 1000 1000 1500 1500
              (panel deepseek_session) in
   outcome_of r = Normal tt /\
   ChatAssistant.isLoading (state_of r) = false /\
   ChatAssistant.chatSessionRef (state_of r)
   = Some (set_chatHistory [system_turn deepseek_session; user_turn "你好"]
                           deepseek_session) /\
   map ChatAssistant.msg_text (ChatAssistant.messages (state_of r))
   = [JString "你好"; JString deepseek_trouble] /\
   effects_of r = ["DeepSeek Call Failed"; "DeepSeek Chat Error"]).
Proof.
  split; [reflexivity|]. split; [reflexivity|]. split; [reflexivity|].
  destruct (handleSend_records_the_question offline gemini_offline nothing_to_trim
              (Some deepseek) (panel deepseek_session) (panel deepseek_session)
              deepseek_session [system_turn deepseek_session] _
              1000 1000 1500 1500 eq_refl eq_refl eq_refl eq_refl)
    as (Ho & Hl & Hs & Hm & He).
  split; [exact Ho|]. split; [exact Hl|]. split; [exact Hs|].
  split; [exact Hm|exact He].
Defined.

(** A question sent from the panel on a Gemini session while the network
    is down. *)
Lemma question_sent_on_gemini_offline :
  ChatAssistant.accepts nothing_to_trim (panel gemini_session) = true /\
  this_provider gemini_session = ProviderGemini /\
  outcome_of (ChatAssistant.handleSend fetch_answers gemini_offline nothing_to_trim None
                (panel gemini_session) 1000 1000 1500 1500 (panel gemini_session))
  = Normal tt /\
  map ChatAssistant.msg_text
    (ChatAssistant.messages
       (state_of (ChatAssistant.handleSend fetch_answers gemini_offline nothing_to_trim None
                    (panel gemini_session) 1000 1000 1500 1500 (panel gemini_session))))
  = [] ++ [JString "你好"; JString ChatAssistant.connection_trouble] /\
  effects_of (ChatAssistant.handleSend fetch_answers gemini_offline nothing_to_trim None
                (panel gemini_session) 1000 1000 1500 1500 (panel gemini_session))
  = ["TypeError: Failed to fetch"] /\
  ChatAssistant.isLoading
    (state_of (ChatAssistant.handleSend fetch_answers gemini_offline nothing_to_trim None
                 (panel gemini_session) 1000 1000 1500 1500 (panel gemini_session)))
  = false.
Proof.
  split; [reflexivity|]. split; [reflexivity|].
  apply (rejected_gemini_call_is_shown fetch_answers gemini_offline nothing_to_trim None
           (panel gemini_session) (panel gemini_session) gemini_session
           {| gc_client := None;
              gc_systemInstruction := system_instruction "";
              gc_calls := 0 |}
           "TypeError: Failed to fetch" 1000 1000 1500 1500);
    reflexivity.
Defined.

(** The draft saved while the network is down, on both versions of the
    service. *)
Lemma draft_saved_offline :
  App.nothing_to_save nothing_to_trim draft = false /\
  (let saved (tags summary advice : jsval)
             (r : outcome unit * App.app * list App.effect) :=
     outcome_of r = Normal tt /\
     App.entries (state_of r)
     = {| App.entry_id := toString 1714550400000;
          App.entry_content := "今天有点累";
          App.entry_date := "2024-05-01T08:00:00.000Z";
          App.entry_moodScore := JNumber 5;
          App.entry_tags := tags;
          App.entry_summary := summary;
          App.entry_advice := advice;
          App.entry_attachments := [] |} :: [] /\
     App.newEntryText (state_of r) = "" /\
     App.isAnalyzing (state_of r) = false /\
     effects_of r = [App.ConsoleError "Analysis failed"] in
   saved (JArray [JString "分析中断"]) (JString "暂时无法分析内容。")
         (JString "记录本身就是一种疗愈。")
         (App.handleSaveEntry
            (fun text attachments =>
               analyzeDiaryEntry offline offline JSON_parse no_data_url
                                 text attachments None)
            nothing_to_trim toISOString draft 1714550400000 1714550400000 draft) /\
   saved (JArray [JString "未知"]) (JString "无法分析内容。")
         (JString "深呼吸，一切都会好起来的。")
         (App.handleSaveEntry
            (analyzeDiaryEntry_000 offline JSON_parse no_data_url)
            nothing_to_trim toISOString draft 1714550400000 1714550400000 draft)).
Proof.
  split; [reflexivity|].
  apply (entry_saved_when_provider_is_down offline offline JSON_parse no_data_url
           nothing_to_trim toISOString draft draft 1714550400000 1714550400000
           "TypeError: Failed to fetch" "2024-05-01T08:00:00.000Z");
    reflexivity.
Defined.

(** The draft when the provider answers [null], on both versions of the
    service. *)
Lemma draft_kept_on_null_analysis :
  String.eqb "null" "" = false /\
  JSON_parse (JString "null") = Normal JNull /\
  App.nothing_to_save nothing_to_trim draft = false /\
  (let dropped (r : outcome unit * App.app * list App.effect) :=
     outcome_of r = Normal tt /\
     state_of r = App.setIsAnalyzing false draft /\
     App.alerts (effects_of r) = [App.analysis_failed] in
   dropped (App.handleSaveEntry
              (fun text attachments =>
                 analyzeDiaryEntry answers_null offline JSON_parse no_data_url
                                   text attachments None)
              nothing_to_trim toISOString draft 1714550400000 1714550400000 draft) /\
   dropped (App.handleSaveEntry
              (analyzeDiaryEntry_000 answers_null JSON_parse no_data_url)
              nothing_to_trim toISOString draft 1714550400000 1714550400000 draft)).
Proof.
  split; [reflexivity|]. split; [reflexivity|]. split; [reflexivity|].
  apply (null_analysis_is_not_saved answers_null offline JSON_parse no_data_url
           nothing_to_trim toISOString draft draft 1714550400000 1714550400000 "null");
    reflexivity.
Defined.

(** An entry with a photo under a DeepSeek configuration. *)
Lemma photo_entry_is_not_fetched :
  [photo] <> [] /\
  analyzeDiaryEntry answers_null offline JSON_parse no_data_url
                    "今天有点累" [photo] (Some deepseek) tt
  = analyzeDiaryEntry answers_null fetch_null JSON_parse no_data_url
                      "今天有点累" [photo] (Some deepseek) tt.
Proof.
  split; [discriminate|].
  apply (attachments_are_never_fetched JSON_parse no_data_url answers_null
           offline fetch_null "今天有点累" [photo] (Some deepseek)).
  discriminate.
Defined.

(** The same entry when a Gemini client made from a key would fail. *)
Lemma deepseek_key_is_not_used_for_gemini :
  is_Gemini (provider deepseek) = false /\
  (forall request, client_key request = None ->
                   answers_null request = default_client_only request) /\
  analyzeDiaryEntry answers_null offline JSON_parse no_data_url
                    "今天有点累" [photo] (Some deepseek) tt
  = analyzeDiaryEntry default_client_only offline JSON_parse no_data_url
                      "今天有点累" [photo] (Some deepseek) tt.
Proof.
  assert (H : forall request, client_key request = None ->
                              answers_null request = default_client_only request).
  { intros request Hk. unfold default_client_only. rewrite Hk. reflexivity. }
  split; [reflexivity|]. split; [exact H|].
  apply (foreign_key_never_reaches_gemini JSON_parse no_data_url answers_null
           default_client_only offline "今天有点累" [photo] deepseek eq_refl H).
Defined.

End ExampleRuns.
